(** * LSB image steganography: a shallow embedding of [steganography.py]

    The Python module hides a text message in the least significant bits of
    the channel values of an image and reads it back.  This file embeds its
    functions as Rocq functions and proves properties of them.

    Conventions of the embedding.
    - A Python [int] that is a size, an index or a length is a [nat]; a
      channel value (an entry of the numpy array) is a [Z], so that [&] and
      [|] are [Z.land] and [Z.lor].
    - A Python [str] is the list of its code points ([N]); [py] turns a Rocq
      string literal into such a list.
    - A call that can raise returns a [result]; [Raise e] is the exception.
    - The numpy array built from [img.getdata()] is the list of its rows, one
      row per pixel, one entry per channel, as it is for RGB, RGBA and the
      other modes with several bands.  For a mode with one band [getdata]
      yields numbers, not tuples, and the array has one dimension: [decode],
      which checks no mode, meets that case ([array_of_getdata]).  The
      functions mutate the array in place and hand it back; the embedding
      returns the updated array. *)

From Stdlib Require Import String Ascii ZArith NArith Arith Bool Lia List.
Import ListNotations.

(** ** Exceptions and the error monad *)

Inductive exn : Type :=
| UnsupportedFormat   (* Exception("This application only supports RGB and RGBA color modes!") *)
| MessageTooLarge     (* Exception("The message is too long to be encoded in this image. ...") *)
| ValueError          (* int() on a string that is not a number, chr() out of range, bad reshape *)
| IndexError          (* string index out of range *)
| AttributeError      (* 'NoneType' object has no attribute 'reshape' *)
| TypeError.          (* object of type 'numpy.int64' has no len() *)

Inductive result (A : Type) : Type :=
| Ok (a : A)
| Raise (e : exn).

Arguments Ok {A} a.
Arguments Raise {A} e.

Definition bind {A B : Type} (m : result A) (k : A -> result B) : result B :=
  match m with
  | Ok a => k a
  | Raise e => Raise e
  end.

Notation "x <- m ;; k" := (bind m (fun x => k))
  (at level 61, m at next level, right associativity).

(** ** Python strings *)

Abbreviation char := N (only parsing).
Abbreviation str := (list N) (only parsing).

Definition py (s : string) : str := map N_of_ascii (list_ascii_of_string s).

Fixpoint str_eqb (a b : str) : bool :=
  match a, b with
  | [], [] => true
  | x :: a', y :: b' => N.eqb x y && str_eqb a' b'
  | _, _ => false
  end.

(** [ord(c)] and [chr(n)]. *)
Definition ord (c : char) : Z := Z.of_N c.

Definition chr (n : Z) : result char :=
  if (0 <=? n)%Z && (n <=? 1114111)%Z then Ok (Z.to_N n) else Raise ValueError.

(** [s[i]] *)
Definition getitem (s : str) (i : nat) : result char :=
  match nth_error s i with
  | Some c => Ok c
  | None => Raise IndexError
  end.

(** [s[i:j]] for [0 <= i <= j] *)
Definition slice (s : str) (i j : nat) : str := firstn (j - i) (skipn i s).

(** [range(start, stop, step)] for a positive step: its length is computed
    first, [ceil((stop - start) / step)], and element [k] is
    [start + k * step]. *)
Definition range (start stop step : nat) : list nat :=
  map (fun k => start + k * step) (seq 0 ((stop - start + (step - 1)) / step)).

(** Binary digits of a positive number, most significant first. *)
Fixpoint bin_digits (p : positive) : str :=
  match p with
  | xH => py "1"
  | xO q => bin_digits q ++ py "0"
  | xI q => bin_digits q ++ py "1"
  end.

Definition zfill (w : nat) (s : str) : str := repeat 48%N (w - length s) ++ s.

(** [format(n, "08b")]: binary, zero-padded to eight characters, the sign
    (if any) before the padding. *)
Definition format_08b (n : Z) : str :=
  match n with
  | Z0 => zfill 8 (py "0")
  | Zpos p => zfill 8 (bin_digits p)
  | Zneg p => py "-" ++ zfill 7 (bin_digits p)
  end.

(** [int(c)] for a one-character string [c]: the decimal digits are the only
    characters it accepts. *)
Definition int_char (c : char) : result Z :=
  if (48 <=? c)%N && (c <=? 57)%N then Ok (Z.of_N c - 48)%Z else Raise ValueError.

(** [int(s, 2)] on a string of binary digits; a string that is empty or holds
    any other character is a [ValueError] here (Python would also accept a
    sign, a [0b] prefix, underscores and blanks: none of them can occur in a
    string built by [extractLSBits]). *)
Fixpoint int_base2_acc (s : str) (acc : Z) : result Z :=
  match s with
  | [] => Ok acc
  | c :: s' =>
      if (c =? 48)%N then int_base2_acc s' (2 * acc)%Z
      else if (c =? 49)%N then int_base2_acc s' (2 * acc + 1)%Z
      else Raise ValueError
  end.

Definition int_base2 (s : str) : result Z :=
  match s with
  | [] => Raise ValueError
  | _ => int_base2_acc s 0%Z
  end.

(** ** Images *)

Definition NDArray : Type := list (list Z).

(** What the module reads of a PIL image: [img.mode], [img.width],
    [img.height] and [list(img.getdata())]. *)
Record Image : Type := mkImage {
  mode : str;
  width : nat;
  height : nat;
  getdata : NDArray
}.

(** The pixel buffer: the channel values in row-major, channel-major order. *)
Definition buffer (img : Image) : list Z := concat (getdata img).

(** ** steganography.py *)

Definition determineBytesPerPixel (mode : str) : result nat :=
  if str_eqb mode (py "RGB") then Ok 3
  else if str_eqb mode (py "RGBA") then Ok 4
  else Raise UnsupportedFormat.

Definition calculateImageCapacity (img : Image) : result nat :=
  bytes_per_pixel <- determineBytesPerPixel (mode img) ;;
  let capacity := width img * height img * bytes_per_pixel / 8 in
  Ok capacity.

Definition clearLSBits (data : NDArray) : NDArray :=
  map (fun row => map (fun v => Z.land v 254) row) data.

(** The inner loop of [encodeBits] over the columns of one row.  It yields the
    updated row, the new [index], and whether [return data] was executed. *)
Fixpoint encodeBits_cols (row : list Z) (binary_string : str) (index : nat)
  : result (list Z * nat * bool) :=
  match row with
  | [] => Ok ([], index, false)
  | v :: row' =>
      if index <? length binary_string then
        c <- getitem binary_string index ;;
        b <- int_char c ;;
        r <- encodeBits_cols row' binary_string (S index) ;;
        let '(row'', index', returned) := r in
        Ok (Z.lor v b :: row'', index', returned)
      else Ok (v :: row', index, true)
  end.

(** The outer loop.  When it runs to its end the function falls off its last
    line, and the call evaluates to [None]. *)
Fixpoint encodeBits_rows (data : NDArray) (binary_string : str) (index : nat)
  : result (option NDArray) :=
  match data with
  | [] => Ok None
  | row :: data' =>
      r <- encodeBits_cols row binary_string index ;;
      let '(row', index', returned) := r in
      if returned then Ok (Some (row' :: data'))
      else
        rest <- encodeBits_rows data' binary_string index' ;;
        Ok (option_map (cons row') rest)
  end.

Definition encodeBits (data : NDArray) (binary_string : str) : result (option NDArray) :=
  encodeBits_rows data binary_string 0.

(** [data.reshape(height, width, bytes_per_pixel)]: on [None] an
    [AttributeError]; on an array, a [ValueError] unless the sizes agree.  The
    reshaped array is kept as its rows of [bytes_per_pixel] channel values,
    which is what [getdata] of the image made from it returns. *)
Fixpoint chunks_fuel (fuel n : nat) (l : list Z) : list (list Z) :=
  match fuel with
  | 0 => []
  | S fuel' =>
      match l with
      | [] => []
      | _ => firstn n l :: chunks_fuel fuel' n (skipn n l)
      end
  end.

Definition chunks (n : nat) (l : list Z) : list (list Z) := chunks_fuel (length l) n l.

Definition reshape (data : option NDArray) (size : nat * nat) (bytes_per_pixel : nat)
  : result NDArray :=
  match data with
  | None => Raise AttributeError
  | Some d =>
      let flat := concat d in
      if length flat =? fst size * snd size * bytes_per_pixel
      then Ok (chunks bytes_per_pixel flat)
      else Raise ValueError
  end.

(** [data.astype("uint8")] *)
Definition astype_uint8 (data : NDArray) : NDArray :=
  map (fun row => map (fun v => Z.modulo v 256) row) data.

(** [Image.fromarray(data, mode)] of an array of shape [(height, width, _)]. *)
Definition fromarray (data : NDArray) (size : nat * nat) (mode : str) : Image :=
  mkImage mode (snd size) (fst size) data.

Section Unidecode.

(** [unidecode] of the [unidecode] package keeps every ASCII character and
    replaces any other by the string its tables give for it. *)
Variable transliteration : char -> str.

Definition unidecode (message : str) : str :=
  flat_map (fun c => if (c <? 128)%N then [c] else transliteration c) message.

(** Lines 76-77 of [encode]: the message as a string of binary digits. *)
Definition message_binary (message : str) : str :=
  let message := unidecode message in
  concat (map (fun char => format_08b (ord char)) message).

Definition encode (img : Image) (message : str) : result Image :=
  capacity <- calculateImageCapacity img ;;
  let message_binary := message_binary message in
  if capacity <? length message_binary then Raise MessageTooLarge
  else
    let data := getdata img in
    let data := clearLSBits data in
    data <- encodeBits data message_binary ;;
    bytes_per_pixel <- determineBytesPerPixel (mode img) ;;
    let size := (height img, width img) in
    data <- reshape data size bytes_per_pixel ;;
    Ok (fromarray (astype_uint8 data) size (mode img)).

End Unidecode.

Fixpoint extractLSBits_cols (row : list Z) (binary_string : str) : result str :=
  match row with
  | [] => Ok binary_string
  | v :: row' =>
      let binary_value := format_08b v in
      c <- getitem binary_value 7 ;;
      extractLSBits_cols row' (binary_string ++ [c])
  end.

Fixpoint extractLSBits_rows (data : NDArray) (binary_string : str) : result str :=
  match data with
  | [] => Ok binary_string
  | row :: data' =>
      binary_string' <- extractLSBits_cols row binary_string ;;
      extractLSBits_rows data' binary_string'
  end.

(** The array [np.array(list(img.getdata()))] as [decode] can meet it.
    [getdata] yields a tuple for each pixel of an image with several bands,
    and the array has two dimensions; it yields a number for each pixel of an
    image with one band, and the array has one dimension. *)
Inductive ndarray : Type :=
| Array2D (rows : NDArray)
| Array1D (values : list Z).

(** The modes of PIL that have a single band. *)
Definition single_band (mode : str) : bool :=
  existsb (str_eqb mode)
          [py "1"; py "L"; py "P"; py "I"; py "F";
           py "I;16"; py "I;16L"; py "I;16B"; py "I;16N"].

(** A pixel of a single-band image is kept in [getdata] as a row of one
    value.  ([encode] builds the same array, but only after
    [calculateImageCapacity] has let the mode through, RGB or RGBA: there it
    is the two-dimensional [getdata img].) *)
Definition array_of_getdata (img : Image) : ndarray :=
  if single_band (mode img) then Array1D (concat (getdata img))
  else Array2D (getdata img).

(** On an array of one dimension [data[row]] is a number, and [len] of it
    raises as soon as the outer loop runs once. *)
Definition extractLSBits (data : ndarray) : result str :=
  match data with
  | Array2D rows => extractLSBits_rows rows []
  | Array1D [] => Ok []
  | Array1D (_ :: _) => Raise TypeError
  end.

(** The first loop of [convertBinaryStringToMessage]. *)
Definition byte_list (binary_string : str) : list str :=
  map (fun i => slice binary_string i (i + 8)) (range 0 (length binary_string) 8).

(** The second loop, with its early [return message]. *)
Fixpoint convert_loop (byte_list : list str) (message : str) : result str :=
  match byte_list with
  | [] => Ok message
  | representation :: rest =>
      if negb (str_eqb representation (py "00000000")) then
        n <- int_base2 representation ;;
        c <- chr n ;;
        convert_loop rest (message ++ [c])
      else Ok message
  end.

Definition convertBinaryStringToMessage (binary_string : str) : result str :=
  convert_loop (byte_list binary_string) [].

Definition decode (img : Image) : result str :=
  let data := array_of_getdata img in
  binary_string <- extractLSBits data ;;
  message <- convertBinaryStringToMessage binary_string ;;
  Ok message.

(** ** Predicates used in the statements *)

Definition is_bit (c : char) : bool := (c =? 48)%N || (c =? 49)%N.
Definition is_bits (s : str) : bool := forallb is_bit s.

(** An ASCII message, and one without the NUL character. *)
Definition is_ascii (m : str) : bool := forallb (fun c => (c <? 128)%N) m.
Definition no_nul (m : str) : bool := forallb (fun c => negb (c =? 0)%N) m.

Definition is_byte (v : Z) : bool := (0 <=? v)%Z && (v <? 256)%Z.

(** The character read by [extractLSBits] from a channel value. *)
Definition lsb_char (v : Z) : char := nth 7 (format_08b v) 48%N.

(** The properties of a byte value that the proofs check on all 256 of them. *)
Definition bit_char (b : bool) : char := if b then 49%N else 48%N.

Definition byte_check (n : Z) : bool :=
  let s := format_08b n in
  (length s =? 8) && is_bits s
  && N.eqb (lsb_char n) (bit_char (Z.odd n))
  && match int_base2 s with Ok k => Z.eqb k n | Raise _ => false end
  && (negb (str_eqb s (py "00000000")) || Z.eqb n 0).

(** Clearing the lowest bit, then writing a bit into it. *)
Definition cleared_check (n : Z) : bool :=
  negb (Z.eqb (Z.land n 254) n)
  || (Z.eqb (Z.land (Z.lor n 0 mod 256) 254) n && Z.eqb (Z.land (Z.lor n 1 mod 256) 254) n
      && Z.eqb (Z.land (n mod 256) 254) n
      && negb (Z.odd (n mod 256))
      && negb (Z.odd (Z.lor n 0 mod 256)) && Z.odd (Z.lor n 1 mod 256)
      && is_byte (n mod 256) && is_byte (Z.lor n 0 mod 256) && is_byte (Z.lor n 1 mod 256)).

(** What [encodeBits] does to the flattened array: entry [k] receives bit [k],
    as long as there are bits. *)
Fixpoint embed (flat bits : list Z) : list Z :=
  match flat, bits with
  | v :: flat', b :: bits' => Z.lor v b :: embed flat' bits'
  | _, _ => flat
  end.

Definition digit_val (c : char) : Z := Z.of_N c - 48.

(** The values of the bits of [binary_string] from position [i] on. *)
Definition bits_from (binary_string : str) (i : nat) : list Z :=
  map digit_val (skipn i binary_string).

(** The buffer that [encode] returns, in terms of the one it was given. *)
Definition encoded_buffer (binary_string : str) (flat : list Z) : list Z :=
  map (fun v => v mod 256)%Z
      (embed (map (fun v => Z.land v 254) flat) (map digit_val binary_string)).

(** Whether the loop of [convertBinaryStringToMessage] meets an all-zero group. *)
Definition has_sentinel (binary_string : list N) : bool :=
  existsb (fun representation => str_eqb representation (py "00000000"))
          (byte_list binary_string).

(** The character that a group of binary digits stands for. *)
Definition group_char (representation : list N) : N :=
  match int_base2 representation with
  | Ok n => Z.to_N n
  | Raise _ => 0%N
  end.

(** ** Sample inputs *)

(** An image of [w * h] black pixels, and a transliteration table that drops
    every character outside ASCII. *)
Definition zero_image (m : str) (w h bpp : nat) : Image :=
  mkImage m w h (repeat (repeat 0%Z bpp) (w * h)).

Definition no_table : char -> str := fun _ => [].

Definition sample_image : Image :=
  mkImage (py "RGBA") 4 4 (repeat [255; 128; 37; 0]%Z 16).

Definition sample_encoded : Image :=
  Eval vm_compute in
    match encode no_table sample_image (py "H") with
    | Ok img => img
    | Raise _ => sample_image
    end.

(** How far a byte moves when its lowest bit is cleared and a bit is written
    into it; checked on all 256 byte values. *)
Definition delta_check (n : Z) : bool :=
  (Z.abs (Z.lor (Z.land n 254) 0 mod 256 - n) <=? 1)%Z
  && (Z.abs (Z.lor (Z.land n 254) 1 mod 256 - n) <=? 1)%Z.

(** ** getImageInfo *)

(** The dictionary that [getImageInfo] builds, one field per key. *)
Record ImageInfo : Type := mkImageInfo {
  info_name : str;
  info_extension : option str;
  info_absolute_path : str;
  info_width : nat;
  info_height : nat;
  info_total_pixels : nat;
  info_file_size : nat;
  info_capacity : nat;
  info_color_mode : str
}.

Section GetImageInfo.

(** [os.path.basename], [os.path.splitext] and [os.path.getsize] belong to the
    platform; the last one asks the file system and can raise. *)
Variable os_path_basename : str -> str.
Variable os_path_splitext : str -> str * str.
Variable os_path_getsize : str -> result nat.

(** [img_format] is [img.format], [None] for an image that was not read from
    a file.  The values of the dictionary are evaluated in the order of its
    keys, so [os.path.getsize] is called before [calculateImageCapacity]. *)
Definition getImageInfo (img : Image) (img_format : option str) (absolute_path : str)
  : result ImageInfo :=
  let '(width, height) := (width img, height img) in
  let name := fst (os_path_splitext (os_path_basename absolute_path)) in
  file_size <- os_path_getsize absolute_path ;;
  capacity <- calculateImageCapacity img ;;
  Ok (mkImageInfo name img_format absolute_path width height (width * height)
                  file_size capacity (mode img)).

End GetImageInfo.

(** ** main.py: the state of the window *)

(** What [showErrorMessage] can be given by [encodeMessage] and
    [decodeImage]. *)
Inductive popup : Type :=
| NoImageLoaded       (* Exception("You need to load an image first!") *)
| NoMessageEntered    (* Exception("You need to enter a message first!") *)
| Core (e : exn).     (* an exception raised in steganography.py *)

(** The attributes of [AppGUI] set in [__init__], and the text of the two
    fields [fieldMessage] and [fieldResult].  The preview labels, which
    [displayImage] fills, are left out. *)
Record AppGUI : Type := mkAppGUI {
  loaded_file_path : option str;
  loaded_image : option Image;
  modified_image : option Image;
  fieldMessage : str;
  fieldResult : str
}.

Definition set_modified_image (self : AppGUI) (image : Image) : AppGUI :=
  mkAppGUI (loaded_file_path self) (loaded_image self) (Some image)
           (fieldMessage self) (fieldResult self).

Definition set_fieldResult (self : AppGUI) (text : str) : AppGUI :=
  mkAppGUI (loaded_file_path self) (loaded_image self) (modified_image self)
           (fieldMessage self) text.

Section MainWindow.

Variable transliteration : char -> str.

(** A method returns the new state and the exception its [except] clause
    hands to [showErrorMessage], if any.  The call [self.displayImage(True)]
    that ends [encodeMessage] fills a preview label and catches its own
    exceptions; it does not touch the attributes kept here. *)
Definition encodeMessage (self : AppGUI) : AppGUI * option popup :=
  match loaded_image self with
  | None => (self, Some NoImageLoaded)
  | Some image =>
      let message := fieldMessage self in
      if length message <? 1 then (self, Some NoMessageEntered)
      else
        match encode transliteration image message with
        | Ok modified_image => (set_modified_image self modified_image, None)
        | Raise e => (self, Some (Core e))
        end
  end.

Definition decodeImage (self : AppGUI) : AppGUI * option popup :=
  match loaded_image self with
  | None => (self, Some NoImageLoaded)
  | Some image =>
      match decode image with
      | Ok message => (set_fieldResult self message, None)
      | Raise e => (self, Some (Core e))
      end
  end.

End MainWindow.

(** A table that knows one character, e with an acute accent. *)
Definition accent_table : char -> str :=
  fun c => if (c =? 233)%N then py "e" else [].

(** A single-band image (mode L) of [w * h] black pixels. *)
Definition gray_image (w h : nat) : Image :=
  mkImage (py "L") w h (repeat [0%Z] (w * h)).

(** The lowest bits of [sample_encoded] as a CMYK image of the same size. *)
Definition sample_parities : Image :=
  mkImage (py "CMYK") 4 4 (map (map (fun v => v mod 2)%Z) (getdata sample_encoded)).

(** A window in which [sample_image] is loaded and a message is typed, and
    stand-ins for the three functions of [os.path]. *)
Definition sample_gui (message : str) : AppGUI :=
  mkAppGUI (Some (py "/tmp/sample.png")) (Some sample_image) None message [].

Definition sample_basename : str -> str := fun _ => py "sample.png".
Definition sample_splitext : str -> str * str := fun _ => (py "sample", py ".png").
Definition sample_getsize : str -> result nat := fun _ => Ok 120.

(** * Proofs *)

(** ** Strings and numbers *)

Lemma str_eqb_eq (a b : str) : str_eqb a b = true <-> a = b.
Proof.
  revert b; induction a as [|x a IH]; intros [|y b]; simpl; split; intro H;
    try reflexivity; try discriminate.
  - apply andb_true_iff in H as [Hx Hab].
    apply N.eqb_eq in Hx. apply IH in Hab. congruence.
  - inversion H; subst. rewrite N.eqb_refl. simpl. now apply IH.
Qed.

Lemma str_eqb_refl (a : str) : str_eqb a a = true.
Proof. now apply str_eqb_eq. Qed.

Lemma is_bits_app (a b : str) : is_bits (a ++ b) = is_bits a && is_bits b.
Proof. apply forallb_app. Qed.

Lemma is_bits_repeat_zero (k : nat) : is_bits (repeat 48%N k) = true.
Proof. induction k; simpl; auto. Qed.

Lemma bin_digits_bits (p : positive) : is_bits (bin_digits p) = true.
Proof.
  induction p; simpl; try reflexivity; rewrite is_bits_app, IHp; reflexivity.
Qed.

Lemma zfill_bits (w : nat) (s : str) : is_bits s = true -> is_bits (zfill w s) = true.
Proof.
  intro H. unfold zfill. now rewrite is_bits_app, is_bits_repeat_zero, H.
Qed.

Lemma zfill_length (w : nat) (s : str) : w <= length (zfill w s).
Proof. unfold zfill. rewrite length_app, repeat_length. lia. Qed.

Lemma is_bits_nth_error (s : str) (i : nat) :
  is_bits s = true -> i < length s ->
  exists c, nth_error s i = Some c /\ is_bit c = true.
Proof.
  revert i; induction s as [|x s IH]; simpl; intros i Hb Hi; [lia|].
  apply andb_true_iff in Hb as [Hx Hs].
  destruct i as [|i]; simpl.
  - now exists x.
  - apply IH; [assumption | lia].
Qed.

Lemma format_08b_item7 (v : Z) :
  getitem (format_08b v) 7 = Ok (lsb_char v) /\ is_bit (lsb_char v) = true.
Proof.
  assert (H : exists c, nth_error (format_08b v) 7 = Some c /\ is_bit c = true).
  { destruct v as [|p|p]; unfold format_08b.
    - exists 48%N. split; reflexivity.
    - apply is_bits_nth_error.
      + apply zfill_bits, bin_digits_bits.
      + pose proof (zfill_length 8 (bin_digits p)). lia.
    - change (py "-" ++ zfill 7 (bin_digits p)) with (45%N :: zfill 7 (bin_digits p)).
      change (nth_error (45%N :: zfill 7 (bin_digits p)) 7)
        with (nth_error (zfill 7 (bin_digits p)) 6).
      apply is_bits_nth_error.
      + apply zfill_bits, bin_digits_bits.
      + pose proof (zfill_length 7 (bin_digits p)). lia. }
  destruct H as [c [Hc Hb]].
  unfold getitem, lsb_char. rewrite Hc.
  rewrite (nth_error_nth _ _ 48%N Hc). auto.
Qed.

Lemma byte_check_all : forallb byte_check (map Z.of_nat (seq 0 256)) = true.
Proof. vm_compute. reflexivity. Qed.

Lemma byte_check_ok (n : Z) : (0 <= n < 256)%Z -> byte_check n = true.
Proof.
  intro H. pose proof byte_check_all as Hall.
  rewrite forallb_forall in Hall. apply Hall.
  apply in_map_iff. exists (Z.to_nat n). split; [lia|].
  apply in_seq. lia.
Qed.

Lemma format_08b_byte (n : Z) :
  (0 <= n < 256)%Z ->
  length (format_08b n) = 8 /\ is_bits (format_08b n) = true /\
  lsb_char n = bit_char (Z.odd n) /\ int_base2 (format_08b n) = Ok n /\
  (format_08b n = py "00000000" -> n = 0%Z).
Proof.
  intro H. apply byte_check_ok in H. unfold byte_check in H.
  repeat (apply andb_true_iff in H as [H ?]).
  repeat split.
  - now apply Nat.eqb_eq.
  - assumption.
  - now apply N.eqb_eq.
  - destruct (int_base2 (format_08b n)); [|discriminate].
    f_equal. now apply Z.eqb_eq.
  - intro E. rewrite E in *.
    match goal with Hx : (_ || _) = true |- _ => simpl in Hx; now apply Z.eqb_eq in Hx end.
Qed.

Lemma cleared_check_all : forallb cleared_check (map Z.of_nat (seq 0 256)) = true.
Proof. vm_compute. reflexivity. Qed.

Lemma land_254_range (v : Z) : (0 <= Z.land v 254 < 256)%Z.
Proof.
  split.
  - apply Z.land_nonneg. right. lia.
  - assert (H : (Z.land v 254 <= 254)%Z).
    { destruct (Z.land v 254) eqn:E; try lia.
      assert (Hr : (Z.land v 254 = Z.land (Z.land v 254) 255)%Z).
      { rewrite <- Z.land_assoc. reflexivity. }
      change 255%Z with (Z.ones 8) in Hr. rewrite Z.land_ones in Hr by lia.
      rewrite E in Hr at 1.
      pose proof (Z.mod_pos_bound (Z.land v 254) (2 ^ 8) ltac:(lia)) as Hb.
      rewrite <- Hr in Hb. change (2 ^ 8)%Z with 256%Z in Hb.
      assert (Ht : Z.testbit (Z.pos p) 0 = false).
      { rewrite <- E. rewrite Z.land_spec. simpl. apply andb_false_r. }
      destruct (Z.eq_dec (Z.pos p) 255) as [E255|]; [|lia].
      rewrite E255 in Ht. discriminate. }
    lia.
Qed.

Lemma land_254_idem (v : Z) : Z.land (Z.land v 254) 254 = Z.land v 254.
Proof. rewrite <- Z.land_assoc. reflexivity. Qed.

Lemma cleared_facts (v : Z) (b : bool) :
  let w := (Z.lor (Z.land v 254) (if b then 1 else 0) mod 256)%Z in
  Z.land w 254 = Z.land v 254 /\ Z.odd w = b /\ is_byte w = true.
Proof.
  pose proof (land_254_range v) as Hr. pose proof (land_254_idem v) as Hi.
  pose proof cleared_check_all as Hall. rewrite forallb_forall in Hall.
  assert (Hc : cleared_check (Z.land v 254) = true).
  { apply Hall. apply in_map_iff. exists (Z.to_nat (Z.land v 254)).
    split; [lia|]. apply in_seq. lia. }
  unfold cleared_check in Hc. rewrite Hi in Hc. rewrite Z.eqb_refl in Hc. simpl in Hc.
  repeat (apply andb_true_iff in Hc as [Hc ?]).
  repeat match goal with H : Z.eqb _ _ = true |- _ => apply Z.eqb_eq in H end.
  repeat match goal with H : negb _ = true |- _ => apply negb_true_iff in H end.
  destruct b; simpl; auto.
Qed.

Lemma cleared_untouched (v : Z) :
  let w := (Z.land v 254 mod 256)%Z in
  Z.land w 254 = Z.land v 254 /\ Z.odd w = false /\ is_byte w = true.
Proof.
  pose proof (cleared_facts v false) as H. simpl in H.
  rewrite Z.lor_0_r in H. exact H.
Qed.

(** ** Reading the bits back *)

Lemma extractLSBits_cols_spec (row : list Z) (acc : str) :
  extractLSBits_cols row acc = Ok (acc ++ map lsb_char row).
Proof.
  revert acc; induction row as [|v row IH]; intro acc; simpl.
  - now rewrite app_nil_r.
  - destruct (format_08b_item7 v) as [Hv _]. rewrite Hv. simpl.
    rewrite IH, <- app_assoc. reflexivity.
Qed.

Lemma extractLSBits_rows_spec (data : NDArray) (acc : str) :
  extractLSBits_rows data acc = Ok (acc ++ map lsb_char (concat data)).
Proof.
  revert acc; induction data as [|row data IH]; intro acc; simpl.
  - now rewrite app_nil_r.
  - rewrite extractLSBits_cols_spec. simpl.
    rewrite IH, map_app, app_assoc. reflexivity.
Qed.

Lemma extractLSBits_spec (data : NDArray) :
  extractLSBits (Array2D data) = Ok (map lsb_char (concat data)).
Proof. unfold extractLSBits. now rewrite extractLSBits_rows_spec. Qed.

Lemma lsb_chars_bits (l : list Z) : is_bits (map lsb_char l) = true.
Proof.
  induction l as [|v l IH]; simpl; [reflexivity|].
  destruct (format_08b_item7 v) as [_ Hb]. now rewrite Hb.
Qed.

(** ** Groups of eight *)

Lemma range_0_8 (n : nat) : range 0 n 8 = map (fun k => k * 8) (seq 0 ((n + 7) / 8)).
Proof. unfold range. rewrite Nat.sub_0_r. reflexivity. Qed.

Lemma byte_list_nil : byte_list [] = [].
Proof. reflexivity. Qed.

Lemma byte_list_short (g : str) :
  0 < length g <= 8 -> byte_list g = [g].
Proof.
  intro H. unfold byte_list. rewrite range_0_8.
  assert (E : (length g + 7) / 8 = 1).
  { symmetry. apply (Nat.div_unique _ 8 1 (length g - 1)); lia. }
  rewrite E. cbn [seq map]. unfold slice. cbn [skipn Nat.mul Nat.add Nat.sub].
  rewrite firstn_all2 by lia. reflexivity.
Qed.

Lemma byte_list_cons (g rest : str) :
  length g = 8 -> rest <> [] -> byte_list (g ++ rest) = g :: byte_list rest.
Proof.
  intros Hg Hrest. unfold byte_list. rewrite !range_0_8, length_app, Hg.
  assert (E : (8 + length rest + 7) / 8 = S ((length rest + 7) / 8)).
  { replace (8 + length rest + 7) with (length rest + 7 + 1 * 8) by lia.
    rewrite Nat.div_add by lia. lia. }
  rewrite E. simpl seq. rewrite <- seq_shift. simpl map. f_equal.
  - change (firstn 8 (g ++ rest) = g).
    rewrite firstn_app, Hg, Nat.sub_diag, firstn_O, app_nil_r.
    apply firstn_all2. lia.
  - rewrite !map_map. apply map_ext. intro k.
    unfold slice. f_equal.
    replace (S k * 8) with (length g + k * 8) by lia.
    rewrite skipn_app. rewrite skipn_all2 by lia.
    replace (length g + k * 8 - length g) with (k * 8) by lia. reflexivity.
Qed.

Lemma byte_list_cons_or_last (g rest : str) :
  length g = 8 ->
  byte_list (g ++ rest) = g :: byte_list rest.
Proof.
  intro Hg. destruct rest as [|c rest].
  - rewrite app_nil_r, byte_list_nil. apply byte_list_short. lia.
  - apply byte_list_cons; [assumption | discriminate].
Qed.

(** Every string splits into a first group of eight and a rest, unless it is
    shorter than eight. *)
Lemma split_eight (s : str) :
  8 <= length s -> exists g rest, s = g ++ rest /\ length g = 8.
Proof.
  intro H. exists (firstn 8 s), (skipn 8 s). split.
  - symmetry. apply firstn_skipn.
  - rewrite length_firstn. lia.
Qed.

Lemma int_base2_acc_bits (s : str) (acc : Z) :
  is_bits s = true -> (0 <= acc)%Z ->
  exists n, int_base2_acc s acc = Ok n /\ (0 <= n < (acc + 1) * 2 ^ Z.of_nat (length s))%Z.
Proof.
  revert acc; induction s as [|c s IH]; intros acc Hb Hacc.
  - exists acc. split; [reflexivity|]. simpl. lia.
  - simpl in Hb. apply andb_true_iff in Hb as [Hc Hs].
    assert (Hpow : (2 ^ Z.of_nat (length (c :: s)) = 2 * 2 ^ Z.of_nat (length s))%Z).
    { simpl length. rewrite Nat2Z.inj_succ, Z.pow_succ_r by lia. reflexivity. }
    assert (Hpos : (0 < 2 ^ Z.of_nat (length s))%Z) by (apply Z.pow_pos_nonneg; lia).
    simpl int_base2_acc. unfold is_bit in Hc.
    destruct (c =? 48)%N.
    + destruct (IH (2 * acc)%Z Hs ltac:(lia)) as [n [Hn Hr]].
      exists n. split; [assumption|]. rewrite Hpow. nia.
    + simpl in Hc. rewrite Hc.
      destruct (IH (2 * acc + 1)%Z Hs ltac:(lia)) as [n [Hn Hr]].
      exists n. split; [assumption|]. rewrite Hpow. nia.
Qed.

Lemma int_base2_bits (s : str) :
  is_bits s = true -> 0 < length s <= 8 ->
  exists n, int_base2 s = Ok n /\ (0 <= n < 256)%Z.
Proof.
  intros Hb Hl. destruct s as [|c s]; [simpl in Hl; lia|].
  unfold int_base2.
  destruct (int_base2_acc_bits (c :: s) 0 Hb ltac:(lia)) as [n [Hn Hr]].
  exists n. split; [assumption|].
  assert (2 ^ Z.of_nat (length (c :: s)) <= 2 ^ 8)%Z by (apply Z.pow_le_mono_r; lia).
  change (2 ^ 8)%Z with 256%Z in *. lia.
Qed.

Lemma chr_byte (n : Z) : (0 <= n < 256)%Z -> chr n = Ok (Z.to_N n).
Proof.
  intro H. unfold chr.
  replace ((0 <=? n)%Z && (n <=? 1114111)%Z) with true; [reflexivity|].
  symmetry. apply andb_true_iff. split; apply Z.leb_le; lia.
Qed.

(** The second loop never raises on groups of binary digits. *)
Lemma convert_loop_total (s : str) :
  is_bits s = true ->
  forall acc, exists message, convert_loop (byte_list s) acc = Ok message.
Proof.
  remember (length s) as n eqn:Hn. revert s Hn.
  induction n as [n IH] using lt_wf_ind. intros s Hn Hb acc.
  destruct (le_lt_dec 8 (length s)) as [Hlong|Hshort].
  - destruct (split_eight s Hlong) as [g [rest [Hs Hg]]]. subst s.
    rewrite is_bits_app in Hb. apply andb_true_iff in Hb as [Hbg Hbr].
    rewrite byte_list_cons_or_last by assumption. simpl.
    destruct (str_eqb g (py "00000000")); simpl.
    + now exists acc.
    + destruct (int_base2_bits g Hbg ltac:(lia)) as [k [Hk Hr]].
      rewrite Hk. simpl. rewrite chr_byte by assumption. simpl.
      apply (IH (length rest)); auto.
      rewrite Hn, length_app. lia.
  - destruct s as [|c s].
    + rewrite byte_list_nil. simpl. now exists acc.
    + rewrite byte_list_short by (simpl in *; lia). cbn [convert_loop].
      destruct (str_eqb (c :: s) (py "00000000")); cbn [negb].
      * now exists acc.
      * destruct (int_base2_bits (c :: s) Hb ltac:(simpl in *; lia)) as [k [Hk Hr]].
        rewrite Hk. cbn [bind]. rewrite chr_byte by assumption. cbn [bind]. eauto.
Qed.

(** ** Writing the bits *)

Lemma embed_nil_r (flat : list Z) : embed flat [] = flat.
Proof. destruct flat; reflexivity. Qed.

Lemma embed_app (a b bits : list Z) :
  embed (a ++ b) bits = embed a bits ++ embed b (skipn (length a) bits).
Proof.
  revert bits; induction a as [|v a IH]; intros bits; simpl.
  - reflexivity.
  - destruct bits as [|x bits]; simpl.
    + now rewrite embed_nil_r.
    + now rewrite IH.
Qed.

Lemma embed_length (flat bits : list Z) : length (embed flat bits) = length flat.
Proof.
  revert bits; induction flat as [|v flat IH]; intros [|b bits]; simpl; auto.
Qed.

Lemma int_char_bit (c : N) : is_bit c = true -> int_char c = Ok (digit_val c).
Proof.
  unfold is_bit, int_char, digit_val. intro H.
  apply orb_true_iff in H as [H|H]; apply N.eqb_eq in H; subst; reflexivity.
Qed.

Lemma skipn_nth_error {A : Type} (l : list A) (i : nat) (x : A) :
  nth_error l i = Some x -> skipn i l = x :: skipn (S i) l.
Proof.
  revert i; induction l as [|y l IH]; intros [|i] H; simpl in *; try discriminate.
  - now inversion H.
  - now apply IH.
Qed.

Section EncodeBits.

Variable binary_string : list N.
Hypothesis Hbits : is_bits binary_string = true.

Lemma encodeBits_cols_spec (row : list Z) (index : nat) :
  index <= length binary_string ->
  encodeBits_cols row binary_string index
  = Ok (embed row (bits_from binary_string index),
        Nat.min (index + length row) (length binary_string),
        length binary_string <? index + length row).
Proof.
  revert index; induction row as [|v row IH]; intros index Hi.
  - cbn [encodeBits_cols embed length].
    replace (Nat.min (index + 0) (length binary_string)) with index by lia.
    replace (length binary_string <? index + 0) with false
      by (symmetry; apply Nat.ltb_ge; lia).
    reflexivity.
  - cbn [encodeBits_cols].
    destruct (index <? length binary_string) eqn:Hlt.
    + apply Nat.ltb_lt in Hlt.
      destruct (is_bits_nth_error binary_string index Hbits Hlt) as [c [Hc Hb]].
      unfold getitem. rewrite Hc. cbn [bind].
      rewrite (int_char_bit c Hb). cbn [bind].
      rewrite IH by lia. cbn [bind].
      unfold bits_from. rewrite (skipn_nth_error _ _ _ Hc). cbn [map embed length].
      replace (index + S (length row)) with (S index + length row) by lia.
      reflexivity.
    + apply Nat.ltb_ge in Hlt.
      unfold bits_from. rewrite skipn_all2 by lia. cbn [map]. rewrite embed_nil_r.
      cbn [length].
      replace (Nat.min (index + S (length row)) (length binary_string)) with index by lia.
      replace (length binary_string <? index + S (length row)) with true
        by (symmetry; apply Nat.ltb_lt; lia).
      reflexivity.
Qed.

Lemma bits_from_skipn (i k : nat) :
  skipn k (bits_from binary_string i) = bits_from binary_string (i + k).
Proof.
  unfold bits_from. rewrite skipn_map, skipn_skipn. f_equal. f_equal. lia.
Qed.

Lemma encodeBits_rows_spec (data : NDArray) (index : nat) :
  index <= length binary_string ->
  (index + length (concat data) <= length binary_string ->
   encodeBits_rows data binary_string index = Ok None) /\
  (length binary_string < index + length (concat data) ->
   exists data', encodeBits_rows data binary_string index = Ok (Some data')
                 /\ concat data' = embed (concat data) (bits_from binary_string index)).
Proof.
  revert index; induction data as [|row data IH]; intros index Hi.
  - simpl. split; [reflexivity | lia].
  - cbn [encodeBits_rows concat]. rewrite encodeBits_cols_spec by assumption.
    cbn [bind]. rewrite length_app.
    destruct (length binary_string <? index + length row) eqn:Hret.
    + apply Nat.ltb_lt in Hret. split; [lia|]. intros _.
      eexists. split; [reflexivity|]. cbn [concat].
      rewrite embed_app, bits_from_skipn.
      unfold bits_from at 3. rewrite skipn_all2 by lia. cbn [map].
      now rewrite embed_nil_r.
    + apply Nat.ltb_ge in Hret.
      replace (Nat.min (index + length row) (length binary_string))
        with (index + length row) by lia.
      destruct (IH (index + length row) Hret) as [Hnone Hsome]. split.
      * intro H. rewrite Hnone by lia. reflexivity.
      * intro H. destruct Hsome as [data' [Hd Hc]]; [lia|].
        rewrite Hd. cbn [bind option_map]. eexists. split; [reflexivity|].
        cbn [concat]. rewrite Hc, embed_app, bits_from_skipn. reflexivity.
Qed.

Lemma encodeBits_none (data : NDArray) :
  length (concat data) <= length binary_string ->
  encodeBits data binary_string = Ok None.
Proof.
  intro H. unfold encodeBits.
  destruct (encodeBits_rows_spec data 0 ltac:(lia)) as [Hnone _]. apply Hnone. lia.
Qed.

Lemma encodeBits_some (data : NDArray) :
  length binary_string < length (concat data) ->
  exists data', encodeBits data binary_string = Ok (Some data')
                /\ concat data' = embed (concat data) (map digit_val binary_string).
Proof.
  intro H. unfold encodeBits.
  destruct (encodeBits_rows_spec data 0 ltac:(lia)) as [_ Hsome].
  destruct Hsome as [data' [Hd Hc]]; [lia|]. exists data'. split; assumption.
Qed.

End EncodeBits.

(** ** The encoded buffer *)

Lemma digit_val_bit (c : N) :
  is_bit c = true -> exists b : bool, digit_val c = (if b then 1 else 0)%Z /\ c = bit_char b.
Proof.
  unfold is_bit. intro H.
  apply orb_true_iff in H as [H|H]; apply N.eqb_eq in H; subst;
    [exists false | exists true]; split; reflexivity.
Qed.

Lemma lsb_char_byte (w : Z) : is_byte w = true -> lsb_char w = bit_char (Z.odd w).
Proof.
  unfold is_byte. intro H. apply andb_true_iff in H as [H1 H2].
  apply Z.leb_le in H1. apply Z.ltb_lt in H2.
  apply (format_08b_byte w). lia.
Qed.

Lemma encoded_buffer_length (bs : list N) (flat : list Z) :
  length (encoded_buffer bs flat) = length flat.
Proof. unfold encoded_buffer. now rewrite length_map, embed_length, length_map. Qed.

Lemma encoded_buffer_cons (c : N) (bs : list N) (v : Z) (flat : list Z) :
  encoded_buffer (c :: bs) (v :: flat)
  = (Z.lor (Z.land v 254) (digit_val c) mod 256)%Z :: encoded_buffer bs flat.
Proof. reflexivity. Qed.

Lemma encoded_buffer_nil (v : Z) (flat : list Z) :
  encoded_buffer [] (v :: flat) = (Z.land v 254 mod 256)%Z :: encoded_buffer [] flat.
Proof.
  unfold encoded_buffer. cbn [map]. rewrite !embed_nil_r. reflexivity.
Qed.

(** Only the lowest bit of an entry can differ. *)
Lemma encoded_buffer_high_bits (bs : list N) (flat : list Z) :
  is_bits bs = true ->
  Forall2 (fun v w => Z.land w 254 = Z.land v 254) flat (encoded_buffer bs flat).
Proof.
  revert bs; induction flat as [|v flat IH]; intros bs Hb.
  - destruct bs; constructor.
  - destruct bs as [|c bs].
    + rewrite encoded_buffer_nil. constructor; [|now apply IH].
      apply cleared_untouched.
    + simpl in Hb. apply andb_true_iff in Hb as [Hc Hbs].
      rewrite encoded_buffer_cons. constructor; [|now apply IH].
      destruct (digit_val_bit c Hc) as [b [Hv _]]. rewrite Hv.
      apply (cleared_facts v b).
Qed.

(** Reading the lowest bits of the encoded buffer gives the bit string, then
    zeros to the end. *)
Lemma encoded_buffer_lsb (bs : list N) (flat : list Z) :
  is_bits bs = true -> length bs <= length flat ->
  map lsb_char (encoded_buffer bs flat) = bs ++ repeat 48%N (length flat - length bs).
Proof.
  revert bs; induction flat as [|v flat IH]; intros bs Hb Hl.
  - destruct bs; [reflexivity | simpl in Hl; lia].
  - destruct bs as [|c bs].
    + rewrite encoded_buffer_nil. cbn [map length Nat.sub repeat app].
      rewrite (IH [] eq_refl ltac:(simpl; lia)). cbn [length app].
      rewrite Nat.sub_0_r. f_equal.
      destruct (cleared_untouched v) as [_ [Ho Hy]].
      rewrite (lsb_char_byte _ Hy), Ho. reflexivity.
    + simpl in Hb. apply andb_true_iff in Hb as [Hc Hbs].
      rewrite encoded_buffer_cons. cbn [map length Nat.sub app].
      rewrite (IH bs Hbs ltac:(simpl in Hl; lia)). f_equal.
      destruct (digit_val_bit c Hc) as [b [Hv Hcb]]. rewrite Hv.
      destruct (cleared_facts v b) as [_ [Ho Hy]].
      rewrite (lsb_char_byte _ Hy), Ho. now symmetry.
Qed.

(** Past the bit string every entry is even. *)
Lemma encoded_buffer_tail (bs : list N) (flat : list Z) (i : nat) :
  length bs <= i -> i < length flat ->
  Z.odd (nth i (encoded_buffer bs flat) 0%Z) = false.
Proof.
  revert bs i; induction flat as [|v flat IH]; intros bs i Hi Hl.
  - simpl in Hl. lia.
  - destruct bs as [|c bs].
    + rewrite encoded_buffer_nil. destruct i as [|i].
      * cbn [nth]. apply cleared_untouched.
      * cbn [nth]. apply IH; simpl in *; lia.
    + rewrite encoded_buffer_cons. destruct i as [|i]; [simpl in Hi; lia|].
      cbn [nth]. apply IH; simpl in *; lia.
Qed.

Lemma Forall2_nth_default (P : Z -> Z -> Prop) (a b : list Z) :
  Forall2 P a b -> P 0%Z 0%Z -> forall i, P (nth i a 0%Z) (nth i b 0%Z).
Proof.
  intros H H0. induction H as [|x y a b Hxy _ IH]; intros [|i]; simpl; auto.
Qed.

Lemma land_1_odd (w : Z) : Z.odd w = false -> Z.land w 1 = 0%Z.
Proof.
  intro H. change 1%Z with (Z.ones 1). rewrite Z.land_ones by lia.
  change (2 ^ 1)%Z with 2%Z. rewrite Zmod_odd, H. reflexivity.
Qed.

(** ** Reshaping *)

Lemma concat_chunks_fuel (n fuel : nat) (l : list Z) :
  0 < n -> length l <= fuel -> concat (chunks_fuel fuel n l) = l.
Proof.
  intro Hn. revert l; induction fuel as [|fuel IH]; intros l Hl.
  - destruct l; [reflexivity | simpl in Hl; lia].
  - destruct l as [|x l]; [reflexivity|].
    cbn [chunks_fuel concat]. rewrite IH.
    + apply firstn_skipn.
    + rewrite length_skipn. cbn [length] in *. lia.
Qed.

Lemma concat_chunks (n : nat) (l : list Z) : 0 < n -> concat (chunks n l) = l.
Proof. intro Hn. apply concat_chunks_fuel; auto. Qed.

Lemma determineBytesPerPixel_cases (m : list N) (bpp : nat) :
  determineBytesPerPixel m = Ok bpp ->
  (m = py "RGB" /\ bpp = 3) \/ (m = py "RGBA" /\ bpp = 4).
Proof.
  unfold determineBytesPerPixel.
  destruct (str_eqb m (py "RGB")) eqn:E3.
  - intro H. inversion H. left. split; [now apply str_eqb_eq | reflexivity].
  - destruct (str_eqb m (py "RGBA")) eqn:E4; [|discriminate].
    intro H. inversion H. right. split; [now apply str_eqb_eq | reflexivity].
Qed.

(** ** The message as bits *)

Lemma format_08b_nonneg_bits (n : Z) : (0 <= n)%Z -> is_bits (format_08b n) = true.
Proof.
  destruct n as [|p|p]; intro H; [reflexivity | | lia].
  apply zfill_bits, bin_digits_bits.
Qed.

Lemma is_bits_concat (l : list (list N)) :
  Forall (fun s => is_bits s = true) l -> is_bits (concat l) = true.
Proof.
  induction 1 as [|s l Hs _ IH]; simpl; [reflexivity|].
  now rewrite is_bits_app, Hs, IH.
Qed.

Lemma message_binary_bits (T : N -> list N) (m : list N) :
  is_bits (message_binary T m) = true.
Proof.
  unfold message_binary. apply is_bits_concat.
  apply Forall_forall. intros s Hs. apply in_map_iff in Hs as [c [Hc _]]. subst s.
  apply format_08b_nonneg_bits. unfold ord. lia.
Qed.

Lemma unidecode_ascii (T : N -> list N) (m : list N) :
  is_ascii m = true -> unidecode T m = m.
Proof.
  induction m as [|c m IH]; simpl; intro H; [reflexivity|].
  apply andb_true_iff in H as [Hc Hm]. rewrite Hc. simpl. now rewrite IH.
Qed.

Lemma message_binary_ascii_length (T : N -> list N) (m : list N) :
  is_ascii m = true -> length (message_binary T m) = 8 * length m.
Proof.
  intro H. unfold message_binary. rewrite (unidecode_ascii T m H).
  induction m as [|c m IH]; [reflexivity|].
  simpl in H. apply andb_true_iff in H as [Hc Hm]. apply N.ltb_lt in Hc.
  cbn [map concat]. rewrite length_app, (IH Hm).
  destruct (format_08b_byte (ord c)) as [Hl _]; [unfold ord; lia|].
  rewrite Hl. simpl. lia.
Qed.

(** ** [encode] and [decode] on the pixel buffer *)

Lemma clearLSBits_buffer (data : NDArray) :
  concat (clearLSBits data) = map (fun v => Z.land v 254) (concat data).
Proof. unfold clearLSBits. now rewrite concat_map. Qed.

Lemma astype_uint8_buffer (data : NDArray) :
  concat (astype_uint8 data) = map (fun v => v mod 256)%Z (concat data).
Proof. unfold astype_uint8. now rewrite concat_map. Qed.

Lemma bytes_per_pixel_pos (m : list N) (bpp : nat) :
  determineBytesPerPixel m = Ok bpp -> 0 < bpp.
Proof. intro H. apply determineBytesPerPixel_cases in H. lia. Qed.

(** What a successful [encode] tells. *)
Lemma encode_ok_inv (T : N -> list N) (img : Image) (m : list N) (img' : Image) :
  encode T img m = Ok img' ->
  exists bpp,
    determineBytesPerPixel (mode img) = Ok bpp
    /\ length (message_binary T m) <= width img * height img * bpp / 8
    /\ length (message_binary T m) < length (buffer img)
    /\ length (buffer img) = height img * width img * bpp
    /\ buffer img' = encoded_buffer (message_binary T m) (buffer img).
Proof.
  unfold encode, calculateImageCapacity.
  destruct (determineBytesPerPixel (mode img)) as [bpp|e] eqn:Hbpp; [|discriminate].
  cbn [bind].
  destruct (width img * height img * bpp / 8 <? length (message_binary T m)) eqn:Hcap;
    [discriminate|].
  apply Nat.ltb_ge in Hcap.
  pose proof (message_binary_bits T m) as Hb.
  destruct (le_lt_dec (length (concat (clearLSBits (getdata img))))
                      (length (message_binary T m))) as [Hle|Hlt].
  - rewrite (encodeBits_none _ Hb _ Hle). cbn [bind reshape]. discriminate.
  - destruct (encodeBits_some _ Hb _ Hlt) as [data' [Hd Hc]].
    rewrite Hd. cbn [bind reshape fst snd].
    destruct (length (concat data') =? height img * width img * bpp) eqn:Hsz;
      [|discriminate].
    apply Nat.eqb_eq in Hsz. cbn [bind]. intro H. inversion H; subst img'; clear H.
    rewrite clearLSBits_buffer in Hc, Hlt. rewrite length_map in Hlt.
    rewrite Hc, embed_length, length_map in Hsz.
    exists bpp. repeat split; try assumption.
    unfold buffer, fromarray. cbn [getdata].
    rewrite astype_uint8_buffer, concat_chunks by (eapply bytes_per_pixel_pos; eauto).
    rewrite Hc. reflexivity.
Qed.

(** When [encode] succeeds. *)
Lemma encode_ok (T : N -> list N) (img : Image) (m : list N) (bpp : nat) :
  determineBytesPerPixel (mode img) = Ok bpp ->
  length (buffer img) = width img * height img * bpp ->
  length (message_binary T m) <= width img * height img * bpp / 8 ->
  0 < length (buffer img) ->
  exists img', encode T img m = Ok img'
               /\ buffer img' = encoded_buffer (message_binary T m) (buffer img).
Proof.
  intros Hbpp Hlen Hcap Hpos.
  unfold encode, calculateImageCapacity. rewrite Hbpp. cbn [bind].
  replace (width img * height img * bpp / 8 <? length (message_binary T m)) with false
    by (symmetry; now apply Nat.ltb_ge).
  pose proof (message_binary_bits T m) as Hb.
  assert (Hdiv : width img * height img * bpp / 8 < width img * height img * bpp).
  { apply Nat.div_lt; lia. }
  assert (Hlt : length (message_binary T m) < length (concat (clearLSBits (getdata img)))).
  { rewrite clearLSBits_buffer, length_map. fold (buffer img). lia. }
  destruct (encodeBits_some _ Hb _ Hlt) as [data' [Hd Hc]].
  rewrite Hd. cbn [bind reshape fst snd].
  rewrite clearLSBits_buffer in Hc.
  replace (length (concat data') =? height img * width img * bpp) with true.
  2:{ symmetry. apply Nat.eqb_eq. rewrite Hc, embed_length, length_map.
      fold (buffer img). lia. }
  cbn [bind]. eexists. split; [reflexivity|].
  unfold buffer at 1, fromarray. cbn [getdata].
  rewrite astype_uint8_buffer, concat_chunks by (eapply bytes_per_pixel_pos; eauto).
  rewrite Hc. reflexivity.
Qed.

Lemma encode_mode (T : N -> list N) (img : Image) (m : list N) (img' : Image) :
  encode T img m = Ok img' -> mode img' = mode img.
Proof.
  unfold encode.
  destruct (calculateImageCapacity img) as [c|e]; [|discriminate]. cbn [bind].
  destruct (c <? length (message_binary T m)); [discriminate|].
  destruct (encodeBits (clearLSBits (getdata img)) (message_binary T m)) as [d|e];
    [|discriminate]. cbn [bind].
  destruct (determineBytesPerPixel (mode img)) as [bpp|e]; [|discriminate]. cbn [bind].
  destruct (reshape d (height img, width img) bpp) as [d'|e]; [|discriminate].
  cbn [bind]. intro H. inversion H. reflexivity.
Qed.

Lemma supported_multi_band (m : list N) (bpp : nat) :
  determineBytesPerPixel m = Ok bpp -> single_band m = false.
Proof.
  intro H. apply determineBytesPerPixel_cases in H as [[H _]|[H _]];
    subst m; reflexivity.
Qed.

(** The image that [encode] returns is not a single-band one. *)
Lemma encode_multi_band (T : N -> list N) (img : Image) (m : list N) (img' : Image)
      (bpp : nat) :
  determineBytesPerPixel (mode img) = Ok bpp ->
  encode T img m = Ok img' -> single_band (mode img') = false.
Proof.
  intros Hbpp He. rewrite (encode_mode T img m img' He).
  exact (supported_multi_band _ _ Hbpp).
Qed.

Lemma decode_buffer (img : Image) :
  single_band (mode img) = false ->
  decode img = convertBinaryStringToMessage (map lsb_char (buffer img)).
Proof.
  intro Hm. unfold decode, array_of_getdata. rewrite Hm.
  rewrite extractLSBits_spec. cbn [bind]. fold (buffer img).
  destruct (convertBinaryStringToMessage (map lsb_char (buffer img))); reflexivity.
Qed.

(** On a single-band image [decode] raises, unless the image has no pixel. *)
Lemma decode_single_band (img : Image) :
  single_band (mode img) = true ->
  decode img = match buffer img with [] => Ok [] | _ :: _ => Raise TypeError end.
Proof.
  intro Hm. unfold decode, array_of_getdata. rewrite Hm. fold (buffer img).
  destruct (buffer img); reflexivity.
Qed.

(** ** Decoding a message followed by zeros *)

Lemma convert_loop_zeros (rest acc : list N) :
  convert_loop (byte_list (py "00000000" ++ rest)) acc = Ok acc.
Proof.
  rewrite byte_list_cons_or_last by reflexivity. reflexivity.
Qed.

Lemma repeat_zeros_split (k : nat) :
  8 <= k -> repeat 48%N k = py "00000000" ++ repeat 48%N (k - 8).
Proof.
  intro H. replace k with (8 + (k - 8)) at 1 by lia.
  rewrite repeat_app. reflexivity.
Qed.

Lemma convert_loop_message (m : list N) (k : nat) :
  is_ascii m = true -> no_nul m = true -> 8 <= k ->
  forall acc,
    convert_loop
      (byte_list (concat (map (fun c => format_08b (ord c)) m) ++ repeat 48%N k)) acc
    = Ok (acc ++ m).
Proof.
  intros Ha Hn Hk. induction m as [|c m IH]; intro acc.
  - cbn [map concat app]. rewrite repeat_zeros_split by assumption.
    rewrite convert_loop_zeros. now rewrite app_nil_r.
  - simpl in Ha, Hn. apply andb_true_iff in Ha as [Hc Ha].
    apply andb_true_iff in Hn as [Hc0 Hn].
    apply N.ltb_lt in Hc. apply negb_true_iff, N.eqb_neq in Hc0.
    destruct (format_08b_byte (ord c)) as [Hl [_ [_ [Hint Hz]]]]; [unfold ord; lia|].
    cbn [map concat]. rewrite <- app_assoc.
    rewrite byte_list_cons_or_last by assumption. cbn [convert_loop].
    destruct (str_eqb (format_08b (ord c)) (py "00000000")) eqn:E.
    + apply str_eqb_eq in E. apply Hz in E. unfold ord in E. lia.
    + cbn [negb]. rewrite Hint. cbn [bind].
      rewrite chr_byte by (unfold ord; lia). cbn [bind].
      rewrite (IH Ha Hn). unfold ord. rewrite N2Z.id, <- app_assoc. reflexivity.
Qed.

(** ** A trailing group of fewer than eight bits *)

Lemma convert_loop_tail (n : nat) :
  forall (full tail acc : list N),
    length full = 8 * n -> 0 < length tail < 8 ->
    convert_loop (byte_list (full ++ tail)) acc
    = if has_sentinel full then convert_loop (byte_list full) acc
      else (message <- convert_loop (byte_list full) acc ;;
            k <- int_base2 tail ;; c <- chr k ;; Ok (message ++ [c])).
Proof.
  induction n as [|n IH]; intros full tail acc Hfull Htail.
  - destruct full; [|simpl in Hfull; lia].
    cbn [app]. unfold has_sentinel. rewrite byte_list_nil. cbn [existsb convert_loop bind].
    rewrite byte_list_short by lia. cbn [convert_loop].
    destruct (str_eqb tail (py "00000000")) eqn:E; [|reflexivity].
    apply str_eqb_eq in E. subst tail. simpl in Htail. lia.
  - destruct (split_eight full ltac:(lia)) as [g [rest [Hs Hg]]]. subst full.
    rewrite length_app in Hfull.
    rewrite <- app_assoc. unfold has_sentinel.
    rewrite (byte_list_cons_or_last g (rest ++ tail) Hg).
    rewrite (byte_list_cons_or_last g rest Hg).
    cbn [existsb convert_loop].
    destruct (str_eqb g (py "00000000")); cbn [negb orb]; [reflexivity|].
    destruct (int_base2 g) as [k|e]; cbn [bind].
    2:{ destruct (existsb _ _); reflexivity. }
    destruct (chr k) as [c|e]; cbn [bind].
    2:{ destruct (existsb _ _); reflexivity. }
    apply IH; lia.
Qed.

Lemma convert_loop_groups (groups : list (list N)) (rest : list N) :
  Forall (fun g => is_bits g = true /\ length g = 8 /\ g <> py "00000000") groups ->
  forall acc,
    convert_loop (byte_list (concat groups ++ py "00000000" ++ rest)) acc
    = Ok (acc ++ map group_char groups).
Proof.
  induction 1 as [|g groups [Hb [Hl Hz]] _ IH]; intro acc.
  - cbn [concat app map]. rewrite convert_loop_zeros. now rewrite app_nil_r.
  - cbn [concat map]. rewrite <- app_assoc.
    rewrite byte_list_cons_or_last by assumption. cbn [convert_loop].
    destruct (str_eqb g (py "00000000")) eqn:E.
    + apply str_eqb_eq in E. contradiction.
    + cbn [negb]. destruct (int_base2_bits g Hb ltac:(lia)) as [k [Hk Hr]].
      unfold group_char. rewrite Hk. cbn [bind].
      rewrite chr_byte by assumption. cbn [bind].
      rewrite IH, <- app_assoc. reflexivity.
Qed.

(** ** The properties *)

(** C1, as amended.  Round trip: for an RGB or RGBA image whose pixel buffer
    holds at least eight bytes, and an ASCII message [m] without the NUL
    character with [len(m) * 8 <= capacity], [encode] succeeds and [decode] of
    its result is [m]. *)
Theorem roundtrip (T : N -> list N) (img : Image) (m : list N) (bpp : nat) :
  determineBytesPerPixel (mode img) = Ok bpp ->
  length (buffer img) = width img * height img * bpp ->
  8 <= length (buffer img) ->
  is_ascii m = true ->
  no_nul m = true ->
  length m * 8 <= width img * height img * bpp / 8 ->
  exists img', encode T img m = Ok img' /\ decode img' = Ok m.
Proof.
  intros Hbpp Hlen Hbuf Ha Hn Hcap.
  pose proof (message_binary_ascii_length T m Ha) as Hl.
  destruct (encode_ok T img m bpp Hbpp Hlen ltac:(lia) ltac:(lia)) as [img' [He Hb]].
  exists img'. split; [assumption|].
  rewrite decode_buffer by (eapply encode_multi_band; eauto).
  rewrite Hb.
  pose proof (Nat.Div0.mul_div_le (width img * height img * bpp) 8) as Hdiv.
  rewrite encoded_buffer_lsb by (try apply message_binary_bits; lia).
  assert (Hk : 8 <= length (buffer img) - length (message_binary T m)) by lia.
  revert Hk. generalize (length (buffer img) - length (message_binary T m)).
  intros k Hk. unfold convertBinaryStringToMessage, message_binary.
  rewrite (unidecode_ascii T m Ha).
  rewrite convert_loop_message by auto. reflexivity.
Qed.

Lemma roundtrip_witness :
  determineBytesPerPixel (mode sample_image) = Ok 4
  /\ length (buffer sample_image) = width sample_image * height sample_image * 4
  /\ 8 <= length (buffer sample_image)
  /\ is_ascii (py "H") = true
  /\ no_nul (py "H") = true
  /\ length (py "H") * 8 <= width sample_image * height sample_image * 4 / 8
  /\ exists img', encode no_table sample_image (py "H") = Ok img'
                  /\ decode img' = Ok (py "H").
Proof.
  repeat (split; [vm_compute; first [reflexivity | lia]|]).
  apply (roundtrip no_table sample_image (py "H") 4);
    vm_compute; first [reflexivity | lia].
Defined.

(** C1, as stated, fails.  A message holding the NUL character fits a 4x4
    RGBA image and is encoded, but [decode] stops at its all-zero group; and
    the empty message encoded in a 1x1 RGB image is decoded as one character,
    read from the three bits the buffer has. *)
Lemma roundtrip_counterexample :
  (calculateImageCapacity (zero_image (py "RGBA") 4 4 4) = Ok 8
   /\ is_ascii [0%N] = true
   /\ length [0%N] * 8 <= 8
   /\ (img <- encode no_table (zero_image (py "RGBA") 4 4 4) [0%N] ;; decode img) = Ok []
   /\ (img <- encode no_table (zero_image (py "RGBA") 4 4 4) [0%N] ;; decode img)
      <> Ok [0%N])
  /\ (calculateImageCapacity (zero_image (py "RGB") 1 1 3) = Ok 0
      /\ is_ascii [] = true
      /\ length (@nil N) * 8 <= 0
      /\ (img <- encode no_table (zero_image (py "RGB") 1 1 3) [] ;; decode img)
         = Ok [0%N]
      /\ (img <- encode no_table (zero_image (py "RGB") 1 1 3) [] ;; decode img)
         <> Ok []).
Proof.
  repeat split; try (vm_compute; first [reflexivity | lia]);
    vm_compute; discriminate.
Qed.

(** C2.  On a 4x4 RGB image the capacity is 6, and [encode] compares the
    number of bits of the message with it: the messages of 16, 48 and 56 bits
    are all rejected. *)
Theorem encode_4x4_rejects (T : N -> list N) (data : NDArray) :
  calculateImageCapacity (mkImage (py "RGB") 4 4 data) = Ok 6
  /\ length (message_binary T (py "Hi")) = 16
  /\ encode T (mkImage (py "RGB") 4 4 data) (py "Hi") = Raise MessageTooLarge
  /\ encode T (mkImage (py "RGB") 4 4 data) (py "Hello!") = Raise MessageTooLarge
  /\ encode T (mkImage (py "RGB") 4 4 data) (py "Hello!!") = Raise MessageTooLarge.
Proof. repeat split; reflexivity. Qed.

(** [encode] raises the too-long exception as soon as the message has more
    bits than the capacity counts characters. *)
Lemma encode_too_large (T : N -> list N) (img : Image) (m : list N) (capacity : nat) :
  calculateImageCapacity img = Ok capacity ->
  capacity < length (message_binary T m) ->
  encode T img m = Raise MessageTooLarge.
Proof.
  intros Hc Hlt. unfold encode. rewrite Hc. cbn [bind].
  apply Nat.ltb_lt in Hlt. now rewrite Hlt.
Qed.

(** What the second loop does with a last group of fewer than eight bits:
    unless an all-zero group of eight stops it before, the group is read as a
    binary number and gives one more character. *)
Lemma convert_short_last_group (full tail message : list N) :
  length full mod 8 = 0 ->
  is_bits tail = true ->
  0 < length tail < 8 ->
  convertBinaryStringToMessage full = Ok message ->
  (has_sentinel full = true ->
   convertBinaryStringToMessage (full ++ tail) = Ok message)
  /\ (has_sentinel full = false ->
      exists k, int_base2 tail = Ok k
                /\ convertBinaryStringToMessage (full ++ tail)
                   = Ok (message ++ [Z.to_N k])).
Proof.
  intros Hmod Hb Hl Hfull.
  assert (Hn : length full = 8 * (length full / 8)).
  { pose proof (Nat.div_mod_eq (length full) 8). lia. }
  unfold convertBinaryStringToMessage in *.
  rewrite (convert_loop_tail (length full / 8) full tail [] Hn Hl), Hfull.
  split; intro Hs; rewrite Hs; [reflexivity|].
  destruct (int_base2_bits tail Hb ltac:(lia)) as [k [Hk Hr]].
  exists k. split; [assumption|].
  cbn [bind]. rewrite Hk. cbn [bind]. rewrite chr_byte by assumption. reflexivity.
Qed.

(** C3.  The code does not discard a last group of fewer than eight bits.
    Three zero bits, which hold no full group, are returned as the character
    of code 0 where dropping them gives the empty string; of the ten bits
    [0100100001] the last two give a second character after H; and the empty
    message hidden in a 1x1 RGB image, whose buffer has three bytes, is read
    back as the character of code 0. *)
Theorem partial_tail_not_discarded :
  convertBinaryStringToMessage (py "000") = Ok [0%N]
  /\ convertBinaryStringToMessage (firstn (length (py "000") / 8 * 8) (py "000")) = Ok []
  /\ convertBinaryStringToMessage (py "0100100001") = Ok (py "H" ++ [1%N])
  /\ convertBinaryStringToMessage (firstn (length (py "0100100001") / 8 * 8)
                                         (py "0100100001")) = Ok (py "H")
  /\ (img <- encode no_table (zero_image (py "RGB") 1 1 3) [] ;; decode img)
     = Ok [0%N].
Proof. repeat split; vm_compute; reflexivity. Qed.

(** C4.  Capacity: for a supported mode [calculateImageCapacity] returns the
    floor of [width * height * bytes_per_pixel / 8]; a 10x10 RGB image has
    capacity 37. *)
Theorem capacity_exact (img : Image) (bpp : nat) :
  determineBytesPerPixel (mode img) = Ok bpp ->
  (bpp = 3 \/ bpp = 4)
  /\ exists capacity,
      calculateImageCapacity img = Ok capacity
      /\ capacity = width img * height img * bpp / 8
      /\ 8 * capacity <= width img * height img * bpp < 8 * capacity + 8.
Proof.
  intro H. split.
  - apply determineBytesPerPixel_cases in H. lia.
  - unfold calculateImageCapacity. rewrite H. cbn [bind].
    eexists. split; [reflexivity|]. split; [reflexivity|].
    pose proof (Nat.div_mod_eq (width img * height img * bpp) 8).
    pose proof (Nat.mod_upper_bound (width img * height img * bpp) 8).
    lia.
Qed.

Lemma capacity_exact_witness :
  determineBytesPerPixel (mode (zero_image (py "RGB") 10 10 3)) = Ok 3
  /\ calculateImageCapacity (zero_image (py "RGB") 10 10 3) = Ok 37.
Proof.
  split; [reflexivity|].
  destruct (capacity_exact (zero_image (py "RGB") 10 10 3) 3 eq_refl)
    as [_ [capacity [Hc [Hv _]]]].
  rewrite Hc, Hv. reflexivity.
Defined.

(** C5.  LSB-only mutation: when [encode] succeeds, the buffer of its result
    is as long as the buffer given, and at every index the two bytes agree on
    all bits but the lowest. *)
Theorem lsb_only_mutation (T : N -> list N) (img : Image) (m : list N) (img' : Image) :
  encode T img m = Ok img' ->
  length (buffer img') = length (buffer img)
  /\ forall i, Z.land (nth i (buffer img') 0%Z) 254 = Z.land (nth i (buffer img) 0%Z) 254.
Proof.
  intro H. apply encode_ok_inv in H as [bpp [_ [_ [_ [_ Hb]]]]].
  rewrite Hb. split.
  - apply encoded_buffer_length.
  - apply (Forall2_nth_default (fun v w => Z.land w 254 = Z.land v 254)).
    + apply encoded_buffer_high_bits, message_binary_bits.
    + reflexivity.
Qed.

Lemma lsb_only_mutation_witness :
  encode no_table sample_image (py "H") = Ok sample_encoded
  /\ length (buffer sample_encoded) = length (buffer sample_image)
  /\ forall i, Z.land (nth i (buffer sample_encoded) 0%Z) 254
               = Z.land (nth i (buffer sample_image) 0%Z) 254.
Proof.
  split; [vm_compute; reflexivity|].
  apply (lsb_only_mutation no_table sample_image (py "H")).
  vm_compute. reflexivity.
Defined.

(** C6.  Zero tail: when [encode] succeeds on a message of [n] bits, every
    byte of the result at a position from [n] on has its lowest bit 0. *)
Theorem zero_tail (T : N -> list N) (img : Image) (m : list N) (img' : Image) :
  encode T img m = Ok img' ->
  forall i, length (message_binary T m) <= i -> i < length (buffer img') ->
            Z.land (nth i (buffer img') 0%Z) 1 = 0%Z.
Proof.
  intros H i Hi Hl. apply encode_ok_inv in H as [bpp [_ [_ [_ [_ Hb]]]]].
  rewrite Hb in *. rewrite encoded_buffer_length in Hl.
  apply land_1_odd. now apply encoded_buffer_tail.
Qed.

Lemma zero_tail_witness :
  encode no_table sample_image (py "H") = Ok sample_encoded
  /\ length (message_binary no_table (py "H")) <= 8
  /\ 8 < length (buffer sample_encoded)
  /\ Z.land (nth 8 (buffer sample_encoded) 0%Z) 1 = 0%Z.
Proof.
  split; [vm_compute; reflexivity|].
  split; [vm_compute; lia|]. split; [vm_compute; lia|].
  apply (zero_tail no_table sample_image (py "H") sample_encoded);
    vm_compute; first [reflexivity | lia].
Defined.

(** C7, as amended.  Sentinel: [convertBinaryStringToMessage] stops at the
    first all-zero group of eight and returns one character for each group
    before it, whatever follows; and [decode] of an image with several bands
    whose first eight bytes all have lowest bit 0 is the empty string. *)
Theorem sentinel_truncation :
  (forall (groups : list (list N)) (rest : list N),
      Forall (fun g => is_bits g = true /\ length g = 8 /\ g <> py "00000000") groups ->
      convertBinaryStringToMessage (concat groups ++ py "00000000" ++ rest)
      = Ok (map group_char groups))
  /\ (forall img : Image,
         single_band (mode img) = false ->
         8 <= length (buffer img) ->
         Forall (fun v => is_byte v = true /\ Z.odd v = false) (firstn 8 (buffer img)) ->
         decode img = Ok []).
Proof.
  split.
  - intros groups rest H. unfold convertBinaryStringToMessage.
    now rewrite convert_loop_groups.
  - intros img Hm Hl Hz. rewrite decode_buffer by assumption.
    rewrite <- (firstn_skipn 8 (buffer img)), map_app.
    assert (E : map lsb_char (firstn 8 (buffer img)) = py "00000000").
    { assert (Hlen : length (firstn 8 (buffer img)) = 8)
        by (rewrite length_firstn; lia).
      revert Hz Hlen. generalize (firstn 8 (buffer img)). intros l Hz.
      assert (Hmap : map lsb_char l = repeat 48%N (length l)).
      { induction Hz as [|v l [Hy Ho] _ IH]; [reflexivity|].
        cbn [map length repeat]. rewrite IH, (lsb_char_byte v Hy), Ho. reflexivity. }
      intro Hlen. rewrite Hmap, Hlen. reflexivity. }
    rewrite E. unfold convertBinaryStringToMessage.
    apply convert_loop_zeros.
Qed.

Lemma sentinel_truncation_witness :
  (Forall (fun g => is_bits g = true /\ length g = 8 /\ g <> py "00000000")
          [py "01001000"; py "01101001"]
   /\ convertBinaryStringToMessage
        (concat [py "01001000"; py "01101001"] ++ py "00000000" ++ py "01000001")
      = Ok (py "Hi"))
  /\ (single_band (mode (zero_image (py "RGB") 2 2 3)) = false
      /\ 8 <= length (buffer (zero_image (py "RGB") 2 2 3))
      /\ Forall (fun v => is_byte v = true /\ Z.odd v = false)
                (firstn 8 (buffer (zero_image (py "RGB") 2 2 3)))
      /\ decode (zero_image (py "RGB") 2 2 3) = Ok []).
Proof.
  assert (Hg : Forall (fun g => is_bits g = true /\ length g = 8 /\ g <> py "00000000")
                      [py "01001000"; py "01101001"]).
  { repeat constructor; discriminate. }
  assert (Hl : 8 <= length (buffer (zero_image (py "RGB") 2 2 3)))
    by (vm_compute; lia).
  assert (Hz : Forall (fun v => is_byte v = true /\ Z.odd v = false)
                      (firstn 8 (buffer (zero_image (py "RGB") 2 2 3)))).
  { vm_compute. repeat constructor. }
  split; [split; [exact Hg|] | split; [reflexivity | split; [exact Hl | split; [exact Hz|]]]].
  - exact (proj1 sentinel_truncation _ (py "01000001") Hg).
  - exact (proj2 sentinel_truncation (zero_image (py "RGB") 2 2 3) eq_refl Hl Hz).
Defined.

(** C7, as stated, fails on an image with one band: the eight bytes of an
    8x1 image of mode L are all zero, and [decode] raises instead of
    returning the empty string. *)
Lemma sentinel_truncation_counterexample :
  8 <= length (buffer (gray_image 8 1))
  /\ Forall (fun v => is_byte v = true /\ Z.odd v = false)
            (firstn 8 (buffer (gray_image 8 1)))
  /\ decode (gray_image 8 1) = Raise TypeError
  /\ decode (gray_image 8 1) <> Ok [].
Proof.
  split; [vm_compute; lia|]. split; [vm_compute; repeat constructor|].
  split; [reflexivity | vm_compute; discriminate].
Qed.

(** C8, as amended.  [decode] never raises on an image with several bands,
    RGB and RGBA among them: it returns a string.  For an image without
    pixels it returns the empty string, whatever the mode; and for images
    with several bands the result depends on the pixel data alone, not on
    the mode or the size. *)
Theorem decode_total :
  (forall img : Image,
      single_band (mode img) = false -> exists message, decode img = Ok message)
  /\ (forall (m : list N) (w h : nat), decode (mkImage m w h []) = Ok [])
  /\ (forall (m m' : list N) (w h w' h' : nat) (data : NDArray),
         single_band m = false -> single_band m' = false ->
         decode (mkImage m w h data) = decode (mkImage m' w' h' data)).
Proof.
  split; [|split].
  - intros img Hm. rewrite decode_buffer by assumption.
    unfold convertBinaryStringToMessage.
    apply convert_loop_total, lsb_chars_bits.
  - intros m w h. unfold decode, array_of_getdata. cbn [mode getdata concat].
    destruct (single_band m); reflexivity.
  - intros m m' w h w' h' data Hm Hm'.
    rewrite !decode_buffer by assumption. reflexivity.
Qed.

Lemma decode_total_witness :
  (single_band (mode sample_image) = false
   /\ exists message, decode sample_image = Ok message)
  /\ (single_band (py "RGB") = false /\ single_band (py "CMYK") = false
      /\ decode (mkImage (py "RGB") 2 2 [[0; 1; 2]; [3; 4; 5]; [6; 7; 8]; [9; 10; 11]]%Z)
         = decode (mkImage (py "CMYK") 3 1 [[0; 1; 2]; [3; 4; 5]; [6; 7; 8]; [9; 10; 11]]%Z)).
Proof.
  split.
  - split; [reflexivity|].
    exact (proj1 decode_total sample_image eq_refl).
  - split; [reflexivity|]. split; [reflexivity|].
    exact (proj2 (proj2 decode_total) (py "RGB") (py "CMYK") 2 2 3 1 _ eq_refl eq_refl).
Defined.

(** C8, as stated, fails on an image with one band: [decode] of a 1x1 image
    of mode L raises at [len(data[row])], it returns no string. *)
Lemma decode_total_counterexample :
  decode (gray_image 1 1) = Raise TypeError
  /\ ~ (exists message, decode (gray_image 1 1) = Ok message).
Proof.
  split; [reflexivity|]. intros [message H]. vm_compute in H. discriminate.
Qed.

(** C9.  [determineBytesPerPixel] returns 3 for RGB and 4 for RGBA and
    raises for any other mode; [calculateImageCapacity] of a CMYK image
    raises the same exception, whatever its size. *)
Theorem unsupported_mode :
  determineBytesPerPixel (py "RGB") = Ok 3
  /\ determineBytesPerPixel (py "RGBA") = Ok 4
  /\ (forall m : list N,
         m <> py "RGB" -> m <> py "RGBA" ->
         determineBytesPerPixel m = Raise UnsupportedFormat)
  /\ (forall (w h : nat) (data : NDArray),
         calculateImageCapacity (mkImage (py "CMYK") w h data) = Raise UnsupportedFormat).
Proof.
  split; [reflexivity|]. split; [reflexivity|]. split.
  - intros m H3 H4. unfold determineBytesPerPixel.
    destruct (str_eqb m (py "RGB")) eqn:E3; [apply str_eqb_eq in E3; contradiction|].
    destruct (str_eqb m (py "RGBA")) eqn:E4; [apply str_eqb_eq in E4; contradiction|].
    reflexivity.
  - reflexivity.
Qed.

Lemma unsupported_mode_witness :
  py "L" <> py "RGB" /\ py "L" <> py "RGBA"
  /\ determineBytesPerPixel (py "L") = Raise UnsupportedFormat.
Proof.
  assert (H3 : py "L" <> py "RGB") by discriminate.
  assert (H4 : py "L" <> py "RGBA") by discriminate.
  split; [exact H3|]. split; [exact H4|].
  exact (proj1 (proj2 (proj2 unsupported_mode)) (py "L") H3 H4).
Defined.

(** C10.  [encodeBits] returns [None] whenever the bit string is at least as
    long as the array has entries, an empty array included; so [encode] of
    the empty message in an image with an empty pixel buffer raises at the
    [reshape] call. *)
Theorem encodeBits_returns_None :
  (forall (data : NDArray) (binary_string : list N),
      is_bits binary_string = true ->
      length (concat data) <= length binary_string ->
      encodeBits data binary_string = Ok None)
  /\ (forall (T : N -> list N) (img : Image) (bpp : nat),
         determineBytesPerPixel (mode img) = Ok bpp ->
         buffer img = [] ->
         encode T img [] = Raise AttributeError).
Proof.
  split.
  - intros data bs Hb Hl. now apply encodeBits_none.
  - intros T img bpp Hbpp Hbuf.
    unfold encode, calculateImageCapacity. rewrite Hbpp. cbn [bind].
    change (message_binary T []) with (@nil N). cbn [length Nat.ltb Nat.leb].
    rewrite (encodeBits_none [] eq_refl).
    + reflexivity.
    + rewrite clearLSBits_buffer. fold (buffer img). rewrite Hbuf. simpl. lia.
Qed.

Lemma encodeBits_returns_None_witness :
  (is_bits (py "011010") = true
   /\ length (concat [[254; 7; 12]; [0; 1; 2]]%Z) <= length (py "011010")
   /\ encodeBits [[254; 7; 12]; [0; 1; 2]]%Z (py "011010") = Ok None)
  /\ (determineBytesPerPixel (mode (zero_image (py "RGB") 0 5 3)) = Ok 3
      /\ buffer (zero_image (py "RGB") 0 5 3) = []
      /\ encode no_table (zero_image (py "RGB") 0 5 3) [] = Raise AttributeError).
Proof.
  split.
  - split; [reflexivity|]. split; [vm_compute; lia|].
    apply (proj1 encodeBits_returns_None); [reflexivity | vm_compute; lia].
  - split; [reflexivity|]. split; [reflexivity|].
    apply (proj2 encodeBits_returns_None no_table _ 3); reflexivity.
Defined.

(** * Further properties of the code *)

(** ** The shape of the reshaped array *)

Lemma chunks_fuel_map (f : Z -> Z) (n fuel : nat) (l : list Z) :
  chunks_fuel fuel n (map f l) = map (map f) (chunks_fuel fuel n l).
Proof.
  revert l; induction fuel as [|fuel IH]; intro l; [reflexivity|].
  destruct l as [|x l]; [reflexivity|].
  cbn [chunks_fuel map]. rewrite <- (IH (skipn n (x :: l))).
  change (f x :: map f l) with (map f (x :: l)).
  now rewrite firstn_map, skipn_map.
Qed.

Lemma chunks_map (f : Z -> Z) (n : nat) (l : list Z) :
  chunks n (map f l) = map (map f) (chunks n l).
Proof. unfold chunks. rewrite length_map. apply chunks_fuel_map. Qed.

Lemma chunks_fuel_shape (n : nat) (Hn : 0 < n) (k : nat) :
  forall (fuel : nat) (l : list Z),
    length l = k * n -> length l <= fuel ->
    length (chunks_fuel fuel n l) = k
    /\ Forall (fun row => length row = n) (chunks_fuel fuel n l).
Proof.
  induction k as [|k IH]; intros fuel l Hl Hf.
  - destruct l; [|simpl in Hl; lia].
    destruct fuel; simpl; auto.
  - destruct l as [|x l]; [simpl in Hl; lia|].
    destruct fuel as [|fuel]; [simpl in Hf; lia|].
    cbn [chunks_fuel].
    destruct (IH fuel (skipn n (x :: l))) as [Hlen Hall].
    + rewrite length_skipn, Hl. lia.
    + rewrite length_skipn. cbn [length] in *. lia.
    + split.
      * cbn [length]. now rewrite Hlen.
      * constructor; [|assumption]. rewrite length_firstn, Hl. lia.
Qed.

Lemma chunks_shape (n k : nat) (l : list Z) :
  0 < n -> length l = k * n ->
  length (chunks n l) = k /\ Forall (fun row => length row = n) (chunks n l).
Proof. intros Hn Hl. apply chunks_fuel_shape; auto. Qed.

Lemma chunks_concat_chunks (n : nat) (l : list Z) :
  0 < n -> chunks n (concat (chunks n l)) = chunks n l.
Proof. intro Hn. now rewrite concat_chunks. Qed.

(** The image that a successful [encode] returns. *)
Lemma encode_ok_image (T : N -> list N) (img : Image) (m : list N) (img' : Image) :
  encode T img m = Ok img' ->
  exists bpp,
    determineBytesPerPixel (mode img) = Ok bpp
    /\ img' = mkImage (mode img) (width img) (height img)
                      (chunks bpp (encoded_buffer (message_binary T m) (buffer img))).
Proof.
  intro H. pose proof H as Hinv.
  apply encode_ok_inv in Hinv as [bpp [Hbpp [_ [Hlt [_ _]]]]].
  exists bpp. split; [assumption|].
  unfold encode, calculateImageCapacity in H. rewrite Hbpp in H. cbn [bind] in H.
  destruct (width img * height img * bpp / 8 <? length (message_binary T m));
    [discriminate|].
  pose proof (message_binary_bits T m) as Hb.
  assert (Hlt' : length (message_binary T m) < length (concat (clearLSBits (getdata img)))).
  { rewrite clearLSBits_buffer, length_map. exact Hlt. }
  destruct (encodeBits_some _ Hb _ Hlt') as [data' [Hd Hc]].
  rewrite Hd in H. cbn [bind reshape fst snd] in H.
  destruct (length (concat data') =? height img * width img * bpp); [|discriminate].
  cbn [bind] in H. inversion H. unfold fromarray. cbn [fst snd]. f_equal.
  unfold astype_uint8. rewrite <- chunks_map, Hc, clearLSBits_buffer. reflexivity.
Qed.

Lemma encoded_buffer_bytes (bs : list N) (flat : list Z) :
  is_bits bs = true -> Forall (fun w => is_byte w = true) (encoded_buffer bs flat).
Proof.
  revert bs; induction flat as [|v flat IH]; intros bs Hb.
  - destruct bs; constructor.
  - destruct bs as [|c bs].
    + rewrite encoded_buffer_nil. constructor; [|now apply IH].
      apply cleared_untouched.
    + simpl in Hb. apply andb_true_iff in Hb as [Hc Hbs].
      rewrite encoded_buffer_cons. constructor; [|now apply IH].
      destruct (digit_val_bit c Hc) as [b [Hv _]]. rewrite Hv.
      apply (cleared_facts v b).
Qed.

(** ** [encode]: when it refuses, when it accepts, what it returns *)

(** X1.  An image whose mode is neither RGB nor RGBA is refused by [encode]
    before the message is looked at: the exception is the one of
    [determineBytesPerPixel], whatever the message and the pixels. *)
Theorem encode_unsupported_mode (T : N -> list N) (img : Image) (m : list N) :
  mode img <> py "RGB" -> mode img <> py "RGBA" ->
  encode T img m = Raise UnsupportedFormat.
Proof.
  intros H3 H4. unfold encode, calculateImageCapacity, determineBytesPerPixel.
  destruct (str_eqb (mode img) (py "RGB")) eqn:E3;
    [apply str_eqb_eq in E3; contradiction|].
  destruct (str_eqb (mode img) (py "RGBA")) eqn:E4;
    [apply str_eqb_eq in E4; contradiction|].
  reflexivity.
Qed.

Lemma encode_unsupported_mode_witness :
  mode (zero_image (py "CMYK") 2 2 4) <> py "RGB"
  /\ mode (zero_image (py "CMYK") 2 2 4) <> py "RGBA"
  /\ encode no_table (zero_image (py "CMYK") 2 2 4) (py "Hi") = Raise UnsupportedFormat.
Proof.
  assert (H3 : mode (zero_image (py "CMYK") 2 2 4) <> py "RGB") by discriminate.
  assert (H4 : mode (zero_image (py "CMYK") 2 2 4) <> py "RGBA") by discriminate.
  split; [exact H3|]. split; [exact H4|].
  exact (encode_unsupported_mode no_table _ (py "Hi") H3 H4).
Defined.

(** X2.  For an RGB or RGBA image with a non-empty buffer of
    [width * height * bytes_per_pixel] entries and an ASCII message, [encode]
    returns an image when eight times the length of the message is at most
    the capacity, and raises the too-long exception otherwise: the longest
    message it takes has [capacity // 8] characters. *)
Theorem encode_accepts_iff (T : N -> list N) (img : Image) (m : list N) (bpp : nat) :
  determineBytesPerPixel (mode img) = Ok bpp ->
  length (buffer img) = width img * height img * bpp ->
  0 < length (buffer img) ->
  is_ascii m = true ->
  (length m <= width img * height img * bpp / 8 / 8 ->
   exists img', encode T img m = Ok img')
  /\ (width img * height img * bpp / 8 / 8 < length m ->
      encode T img m = Raise MessageTooLarge).
Proof.
  intros Hbpp Hlen Hpos Ha.
  pose proof (message_binary_ascii_length T m Ha) as Hl.
  set (c := width img * height img * bpp / 8) in *.
  pose proof (Nat.div_mod_eq c 8) as Hdm.
  pose proof (Nat.mod_upper_bound c 8 ltac:(lia)) as Hmod.
  split; intro H.
  - destruct (encode_ok T img m bpp Hbpp Hlen ltac:(fold c; lia) Hpos) as [img' [He _]].
    now exists img'.
  - apply (encode_too_large T img m c).
    + unfold calculateImageCapacity. rewrite Hbpp. reflexivity.
    + lia.
Qed.

Lemma encode_accepts_iff_witness :
  determineBytesPerPixel (mode (zero_image (py "RGB") 8 8 3)) = Ok 3
  /\ length (buffer (zero_image (py "RGB") 8 8 3)) = 8 * 8 * 3
  /\ 0 < length (buffer (zero_image (py "RGB") 8 8 3))
  /\ is_ascii (py "Hi!") = true
  /\ (exists img', encode no_table (zero_image (py "RGB") 8 8 3) (py "Hi!") = Ok img')
  /\ encode no_table (zero_image (py "RGB") 8 8 3) (py "Hey!") = Raise MessageTooLarge.
Proof.
  split; [reflexivity|]. split; [reflexivity|]. split; [vm_compute; lia|].
  split; [reflexivity|]. split.
  - apply (proj1 (encode_accepts_iff no_table (zero_image (py "RGB") 8 8 3) (py "Hi!") 3
                    eq_refl eq_refl ltac:(vm_compute; lia) eq_refl)).
    vm_compute. lia.
  - apply (proj2 (encode_accepts_iff no_table (zero_image (py "RGB") 8 8 3) (py "Hey!") 3
                    eq_refl eq_refl ltac:(vm_compute; lia) eq_refl)).
    vm_compute. lia.
Defined.

(** X3.  The image that [encode] returns has the mode and the size of the
    one it was given, [height * width] pixels of [bytes_per_pixel] channel
    values each, every value between 0 and 255; and the bits written take at
    most one eighth of the buffer. *)
Theorem encode_result_shape (T : N -> list N) (img : Image) (m : list N) (img' : Image) :
  encode T img m = Ok img' ->
  exists bpp,
    determineBytesPerPixel (mode img) = Ok bpp
    /\ mode img' = mode img /\ width img' = width img /\ height img' = height img
    /\ length (getdata img') = height img * width img
    /\ Forall (fun pixel => length pixel = bpp) (getdata img')
    /\ Forall (fun v => is_byte v = true) (buffer img')
    /\ 8 * length (message_binary T m) <= length (buffer img).
Proof.
  intro H. pose proof H as Hinv.
  apply encode_ok_inv in Hinv as [bpp [Hbpp [Hcap [_ [Hlen Hbuf]]]]].
  destruct (encode_ok_image T img m img' H) as [bpp' [Hbpp' Himg]].
  rewrite Hbpp in Hbpp'. inversion Hbpp'; subst bpp'. clear Hbpp'.
  exists bpp. split; [assumption|].
  pose proof (bytes_per_pixel_pos _ _ Hbpp) as Hpos.
  destruct (chunks_shape bpp (height img * width img)
              (encoded_buffer (message_binary T m) (buffer img)) Hpos) as [Hn Hrows].
  { rewrite encoded_buffer_length. exact Hlen. }
  rewrite Hbuf. subst img'. cbn [mode width height getdata].
  repeat split; try assumption.
  - apply encoded_buffer_bytes, message_binary_bits.
  - pose proof (Nat.Div0.mul_div_le (width img * height img * bpp) 8). lia.
Qed.

Lemma encode_result_shape_witness :
  encode no_table sample_image (py "H") = Ok sample_encoded
  /\ exists bpp,
      determineBytesPerPixel (mode sample_image) = Ok bpp
      /\ mode sample_encoded = mode sample_image
      /\ width sample_encoded = width sample_image
      /\ height sample_encoded = height sample_image
      /\ length (getdata sample_encoded) = height sample_image * width sample_image
      /\ Forall (fun pixel => length pixel = bpp) (getdata sample_encoded)
      /\ Forall (fun v => is_byte v = true) (buffer sample_encoded)
      /\ 8 * length (message_binary no_table (py "H")) <= length (buffer sample_image).
Proof.
  split; [vm_compute; reflexivity|].
  apply (encode_result_shape no_table sample_image (py "H")).
  vm_compute. reflexivity.
Defined.

(** ** Messages outside ASCII, and encoding twice *)

Lemma ascii_bits_length (u : list N) :
  is_ascii u = true ->
  length (concat (map (fun c => format_08b (ord c)) u)) = 8 * length u.
Proof.
  induction u as [|c u IH]; intro H; [reflexivity|].
  simpl in H. apply andb_true_iff in H as [Hc Hu]. apply N.ltb_lt in Hc.
  cbn [map concat]. rewrite length_app, (IH Hu).
  destruct (format_08b_byte (ord c)) as [Hl _]; [unfold ord; lia|].
  rewrite Hl. simpl. lia.
Qed.

(** Reading back what [encode] wrote gives the transliterated message. *)
Lemma decode_encode_unidecode (T : N -> list N) (img : Image) (m : list N) (bpp : nat) :
  determineBytesPerPixel (mode img) = Ok bpp ->
  length (buffer img) = width img * height img * bpp ->
  8 <= length (buffer img) ->
  is_ascii (unidecode T m) = true ->
  no_nul (unidecode T m) = true ->
  length (unidecode T m) * 8 <= width img * height img * bpp / 8 ->
  exists img', encode T img m = Ok img' /\ decode img' = Ok (unidecode T m).
Proof.
  intros Hbpp Hlen Hbuf Ha Hn Hcap.
  assert (Hl : length (message_binary T m) = 8 * length (unidecode T m))
    by (unfold message_binary; now apply ascii_bits_length).
  destruct (encode_ok T img m bpp Hbpp Hlen ltac:(lia) ltac:(lia)) as [img' [He Hb]].
  exists img'. split; [assumption|].
  rewrite decode_buffer by (eapply encode_multi_band; eauto).
  rewrite Hb.
  pose proof (Nat.Div0.mul_div_le (width img * height img * bpp) 8) as Hdiv.
  rewrite encoded_buffer_lsb by (try apply message_binary_bits; lia).
  assert (Hk : 8 <= length (buffer img) - length (message_binary T m)) by lia.
  revert Hk. generalize (length (buffer img) - length (message_binary T m)).
  intros k Hk. unfold convertBinaryStringToMessage, message_binary.
  rewrite convert_loop_message by auto. reflexivity.
Qed.

(** X4.  Round trip for any message: when the transliteration of the
    message is ASCII without NUL and fits, [decode] of the encoded image is
    the transliterated message, not the message typed. *)
Theorem roundtrip_transliterated
  (T : N -> list N) (img : Image) (m : list N) (bpp : nat) :
  determineBytesPerPixel (mode img) = Ok bpp ->
  length (buffer img) = width img * height img * bpp ->
  8 <= length (buffer img) ->
  is_ascii (unidecode T m) = true ->
  no_nul (unidecode T m) = true ->
  length (unidecode T m) * 8 <= width img * height img * bpp / 8 ->
  exists img', encode T img m = Ok img' /\ decode img' = Ok (unidecode T m).
Proof. apply decode_encode_unidecode. Qed.

Lemma roundtrip_transliterated_witness :
  determineBytesPerPixel (mode sample_image) = Ok 4
  /\ length (buffer sample_image) = width sample_image * height sample_image * 4
  /\ 8 <= length (buffer sample_image)
  /\ is_ascii (unidecode accent_table [233%N]) = true
  /\ no_nul (unidecode accent_table [233%N]) = true
  /\ length (unidecode accent_table [233%N]) * 8
     <= width sample_image * height sample_image * 4 / 8
  /\ exists img', encode accent_table sample_image [233%N] = Ok img'
                  /\ decode img' = Ok (py "e").
Proof.
  repeat (split; [vm_compute; first [reflexivity | lia]|]).
  apply (roundtrip_transliterated accent_table sample_image [233%N] 4);
    vm_compute; first [reflexivity | lia].
Defined.

(** X5.  Encoding overwrites: after a first message was encoded, encoding a
    second one (ASCII, without NUL, fitting) in the result and decoding gives
    the second message; nothing of the first one is left to read. *)
Theorem encode_overwrites
  (T : N -> list N) (img : Image) (m1 m2 : list N) (img1 : Image) (bpp : nat) :
  encode T img m1 = Ok img1 ->
  determineBytesPerPixel (mode img) = Ok bpp ->
  8 <= length (buffer img) ->
  is_ascii m2 = true ->
  no_nul m2 = true ->
  length m2 * 8 <= width img * height img * bpp / 8 ->
  exists img2, encode T img1 m2 = Ok img2 /\ decode img2 = Ok m2.
Proof.
  intros H1 Hbpp Hbuf Ha Hn Hcap.
  pose proof H1 as Hinv.
  apply encode_ok_inv in Hinv as [bpp' [Hbpp' [_ [_ [Hlen Hb]]]]].
  rewrite Hbpp in Hbpp'. inversion Hbpp'; subst bpp'. clear Hbpp'.
  destruct (encode_ok_image T img m1 img1 H1) as [bpp' [Hbpp' Himg]].
  rewrite Hbpp in Hbpp'. inversion Hbpp'; subst bpp'. clear Hbpp'.
  assert (Hm : mode img1 = mode img) by (subst img1; reflexivity).
  assert (Hw : width img1 = width img) by (subst img1; reflexivity).
  assert (Hh : height img1 = height img) by (subst img1; reflexivity).
  assert (Hl1 : length (buffer img1) = length (buffer img))
    by (rewrite Hb; apply encoded_buffer_length).
  pose proof (unidecode_ascii T m2 Ha) as Hu.
  destruct (decode_encode_unidecode T img1 m2 bpp) as [img2 [He Hd]].
  - now rewrite Hm.
  - rewrite Hl1, Hw, Hh. lia.
  - lia.
  - now rewrite Hu.
  - now rewrite Hu.
  - rewrite Hu, Hw, Hh. exact Hcap.
  - exists img2. rewrite Hu in Hd. split; assumption.
Qed.

Lemma encode_overwrites_witness :
  encode no_table sample_image (py "H") = Ok sample_encoded
  /\ determineBytesPerPixel (mode sample_image) = Ok 4
  /\ 8 <= length (buffer sample_image)
  /\ is_ascii (py "!") = true
  /\ no_nul (py "!") = true
  /\ length (py "!") * 8 <= width sample_image * height sample_image * 4 / 8
  /\ exists img2, encode no_table sample_encoded (py "!") = Ok img2
                  /\ decode img2 = Ok (py "!").
Proof.
  repeat (split; [vm_compute; first [reflexivity | lia]|]).
  apply (encode_overwrites no_table sample_image (py "H") (py "!") sample_encoded 4);
    vm_compute; first [reflexivity | lia].
Defined.

Lemma encoded_buffer_idem (bs : list N) (flat : list Z) :
  is_bits bs = true ->
  encoded_buffer bs (encoded_buffer bs flat) = encoded_buffer bs flat.
Proof.
  revert bs; induction flat as [|v flat IH]; intros bs Hb.
  - destruct bs; reflexivity.
  - destruct bs as [|c bs].
    + rewrite encoded_buffer_nil, encoded_buffer_nil. rewrite (IH [] eq_refl).
      f_equal. destruct (cleared_untouched v) as [Hh _]. now rewrite Hh.
    + simpl in Hb. apply andb_true_iff in Hb as [Hc Hbs].
      rewrite encoded_buffer_cons, encoded_buffer_cons. rewrite (IH bs Hbs).
      f_equal. destruct (digit_val_bit c Hc) as [b [Hv _]]. rewrite Hv.
      destruct (cleared_facts v b) as [Hh _]. now rewrite Hh.
Qed.

(** X6.  Encoding is idempotent: encoding the same message again in the
    image that [encode] returned gives that image back. *)
Theorem encode_idempotent (T : N -> list N) (img : Image) (m : list N) (img' : Image) :
  encode T img m = Ok img' -> encode T img' m = Ok img'.
Proof.
  intro H. pose proof H as Hinv.
  apply encode_ok_inv in Hinv as [bpp [Hbpp [Hcap [Hlt [Hlen Hb]]]]].
  destruct (encode_ok_image T img m img' H) as [bpp' [Hbpp' Himg]].
  rewrite Hbpp in Hbpp'. inversion Hbpp'; subst bpp'. clear Hbpp'.
  pose proof (bytes_per_pixel_pos _ _ Hbpp) as Hpos.
  assert (Hm : mode img' = mode img) by (subst img'; reflexivity).
  assert (Hw : width img' = width img) by (subst img'; reflexivity).
  assert (Hh : height img' = height img) by (subst img'; reflexivity).
  assert (Hl' : length (buffer img') = length (buffer img))
    by (rewrite Hb; apply encoded_buffer_length).
  destruct (encode_ok T img' m bpp) as [img'' [He Hb'']].
  - now rewrite Hm.
  - rewrite Hl', Hw, Hh. lia.
  - now rewrite Hw, Hh.
  - lia.
  - rewrite He. f_equal.
    destruct (encode_ok_image T img' m img'' He) as [bpp' [Hbpp' Himg'']].
    rewrite Hm, Hbpp in Hbpp'. inversion Hbpp'; subst bpp'. clear Hbpp'.
    rewrite Himg'', Hm, Hw, Hh, Hb.
    rewrite encoded_buffer_idem by apply message_binary_bits.
    symmetry. exact Himg.
Qed.

Lemma encode_idempotent_witness :
  encode no_table sample_image (py "H") = Ok sample_encoded
  /\ encode no_table sample_encoded (py "H") = Ok sample_encoded.
Proof.
  split; [vm_compute; reflexivity|].
  apply (encode_idempotent no_table sample_image (py "H")).
  vm_compute. reflexivity.
Defined.

Lemma delta_check_all : forallb delta_check (map Z.of_nat (seq 0 256)) = true.
Proof. vm_compute. reflexivity. Qed.

Lemma encoded_buffer_delta (bs : list N) (flat : list Z) :
  is_bits bs = true ->
  Forall2 (fun v w => is_byte v = true -> (Z.abs (w - v) <= 1)%Z)
          flat (encoded_buffer bs flat).
Proof.
  assert (Hd : forall v, is_byte v = true -> delta_check v = true).
  { intros v Hv. unfold is_byte in Hv. apply andb_true_iff in Hv as [H1 H2].
    apply Z.leb_le in H1. apply Z.ltb_lt in H2.
    pose proof delta_check_all as Hall. rewrite forallb_forall in Hall.
    apply Hall. apply in_map_iff. exists (Z.to_nat v). split; [lia|].
    apply in_seq. lia. }
  revert bs; induction flat as [|v flat IH]; intros bs Hb.
  - destruct bs; constructor.
  - destruct bs as [|c bs].
    + rewrite encoded_buffer_nil. constructor; [|now apply IH].
      intro Hv. apply Hd in Hv. unfold delta_check in Hv.
      apply andb_true_iff in Hv as [H0 _]. apply Z.leb_le in H0.
      now rewrite Z.lor_0_r in H0.
    + simpl in Hb. apply andb_true_iff in Hb as [Hc Hbs].
      rewrite encoded_buffer_cons. constructor; [|now apply IH].
      intro Hv. apply Hd in Hv. unfold delta_check in Hv.
      apply andb_true_iff in Hv as [H0 H1].
      apply Z.leb_le in H0. apply Z.leb_le in H1.
      destruct (digit_val_bit c Hc) as [[|] [Hv' _]]; rewrite Hv'; assumption.
Qed.

Lemma Forall2_nth_error_l (P : Z -> Z -> Prop) (a b : list Z) :
  Forall2 P a b ->
  forall i x, nth_error a i = Some x -> exists y, nth_error b i = Some y /\ P x y.
Proof.
  induction 1 as [|x0 y0 a b Hxy _ IH]; intros [|i] x Hi; simpl in Hi;
    try discriminate.
  - inversion Hi; subst. exists y0. split; [reflexivity | assumption].
  - simpl. now apply IH.
Qed.

(** X7.  A channel value between 0 and 255 moves by at most one when an
    image is encoded. *)
Theorem encode_changes_by_one
  (T : N -> list N) (img : Image) (m : list N) (img' : Image) (i : nat) (v : Z) :
  encode T img m = Ok img' ->
  nth_error (buffer img) i = Some v ->
  is_byte v = true ->
  exists w, nth_error (buffer img') i = Some w /\ (Z.abs (w - v) <= 1)%Z.
Proof.
  intros H Hi Hv. apply encode_ok_inv in H as [bpp [_ [_ [_ [_ Hb]]]]].
  rewrite Hb.
  pose proof (encoded_buffer_delta (message_binary T m) (buffer img)
                (message_binary_bits T m)) as HF.
  destruct (Forall2_nth_error_l _ _ _ HF i v Hi) as [w [Hw Hd]].
  exists w. split; [assumption | auto].
Qed.

Lemma encode_changes_by_one_witness :
  encode no_table sample_image (py "H") = Ok sample_encoded
  /\ nth_error (buffer sample_image) 0 = Some 255%Z
  /\ is_byte 255 = true
  /\ exists w, nth_error (buffer sample_encoded) 0 = Some w /\ (Z.abs (w - 255) <= 1)%Z.
Proof.
  split; [vm_compute; reflexivity|]. split; [reflexivity|]. split; [reflexivity|].
  apply (encode_changes_by_one no_table sample_image (py "H") sample_encoded 0 255);
    vm_compute; reflexivity.
Defined.

(** ** What [decode] reads *)

Lemma lsb_chars_parity (l : list Z) :
  Forall (fun v => is_byte v = true) l ->
  map lsb_char l = map bit_char (map Z.odd l).
Proof.
  induction 1 as [|v l Hv _ IH]; [reflexivity|].
  cbn [map]. now rewrite IH, (lsb_char_byte v Hv).
Qed.

(** X8.  [decode] looks at the lowest bit of each byte only: two images that
    both have several bands, or both have one, and whose bytes have the same
    parities give the same result, the same string or the same exception,
    whatever their sizes and upper bits. *)
Theorem decode_lowest_bits_only (a b : Image) :
  single_band (mode a) = single_band (mode b) ->
  Forall (fun v => is_byte v = true) (buffer a) ->
  Forall (fun v => is_byte v = true) (buffer b) ->
  map Z.odd (buffer a) = map Z.odd (buffer b) ->
  decode a = decode b.
Proof.
  intros Hm Ha Hb Hodd. destruct (single_band (mode b)) eqn:Eb.
  - rewrite (decode_single_band a Hm), (decode_single_band b Eb).
    destruct (buffer a), (buffer b); try discriminate; reflexivity.
  - rewrite (decode_buffer a Hm), (decode_buffer b Eb).
    now rewrite (lsb_chars_parity _ Ha), (lsb_chars_parity _ Hb), Hodd.
Qed.

Lemma decode_lowest_bits_only_witness :
  single_band (mode sample_encoded) = single_band (mode sample_parities)
  /\ Forall (fun v => is_byte v = true) (buffer sample_encoded)
  /\ Forall (fun v => is_byte v = true) (buffer sample_parities)
  /\ map Z.odd (buffer sample_encoded) = map Z.odd (buffer sample_parities)
  /\ decode sample_encoded = decode sample_parities.
Proof.
  assert (Ha : Forall (fun v => is_byte v = true) (buffer sample_encoded)).
  { vm_compute. repeat constructor. }
  assert (Hb : Forall (fun v => is_byte v = true) (buffer sample_parities)).
  { vm_compute. repeat constructor. }
  split; [reflexivity|]. split; [exact Ha|]. split; [exact Hb|].
  split; [vm_compute; reflexivity|].
  apply (decode_lowest_bits_only sample_encoded sample_parities eq_refl Ha Hb).
  vm_compute. reflexivity.
Defined.

Lemma int_base2_acc_zero (s : list N) :
  forall acc, (0 <= acc)%Z -> int_base2_acc s acc = Ok 0%Z ->
              acc = 0%Z /\ s = repeat 48%N (length s).
Proof.
  induction s as [|c s IH]; intros acc Hacc H.
  - simpl in H. inversion H. auto.
  - cbn [int_base2_acc] in H. destruct (c =? 48)%N eqn:E0.
    + apply N.eqb_eq in E0. subst c.
      destruct (IH (2 * acc)%Z ltac:(lia) H) as [Ha Hs].
      split; [lia|]. cbn [length repeat]. now rewrite <- Hs.
    + destruct (c =? 49)%N; [|discriminate].
      destruct (IH (2 * acc + 1)%Z ltac:(lia) H) as [Ha _]. lia.
Qed.

Lemma int_base2_group_nonzero (g : list N) (k : Z) :
  length g = 8 -> g <> py "00000000" -> int_base2 g = Ok k -> k <> 0%Z.
Proof.
  intros Hl Hz Hk E. subst k. destruct g as [|c g]; [discriminate|].
  unfold int_base2 in Hk.
  destruct (int_base2_acc_zero (c :: g) 0 ltac:(lia) Hk) as [_ Hs].
  rewrite Hl in Hs. apply Hz. exact Hs.
Qed.

Lemma convert_loop_bounds (s : list N) :
  is_bits s = true ->
  forall acc out,
    convert_loop (byte_list s) acc = Ok out ->
    exists tail,
      out = acc ++ tail
      /\ length tail <= (length s + 7) / 8
      /\ Forall (fun c => (c < 256)%N) tail
      /\ (length s mod 8 = 0 -> no_nul tail = true).
Proof.
  remember (length s) as n eqn:Hn. revert s Hn.
  induction n as [n IH] using lt_wf_ind. intros s Hn Hb acc out Hout.
  assert (Hnil : exists tail : list N,
             acc = acc ++ tail /\ length tail <= (n + 7) / 8
             /\ Forall (fun c => (c < 256)%N) tail /\ (n mod 8 = 0 -> no_nul tail = true)).
  { exists []. rewrite app_nil_r. repeat split; simpl; auto. lia. }
  destruct (le_lt_dec 8 (length s)) as [Hlong|Hshort].
  - destruct (split_eight s Hlong) as [g [rest [Hs Hg]]]. subst s.
    rewrite is_bits_app in Hb. apply andb_true_iff in Hb as [Hbg Hbr].
    rewrite length_app, Hg in Hn.
    rewrite byte_list_cons_or_last in Hout by assumption. cbn [convert_loop] in Hout.
    destruct (str_eqb g (py "00000000")) eqn:E; cbn [negb] in Hout.
    + inversion Hout; subst out. exact Hnil.
    + destruct (int_base2_bits g Hbg ltac:(lia)) as [k [Hk Hr]].
      rewrite Hk in Hout. cbn [bind] in Hout.
      rewrite chr_byte in Hout by assumption. cbn [bind] in Hout.
      destruct (IH (length rest) ltac:(lia) rest eq_refl Hbr _ _ Hout)
        as [tail [Ho [Hl [Hc Hz]]]].
      exists (Z.to_N k :: tail). rewrite Ho, <- app_assoc.
      split; [reflexivity|]. split; [|split].
      * cbn [length]. subst n.
        replace (8 + length rest + 7) with (length rest + 7 + 1 * 8) by lia.
        rewrite Nat.div_add by lia. lia.
      * constructor; [lia | assumption].
      * intro Hm. cbn [no_nul forallb]. apply andb_true_iff. split.
        -- apply negb_true_iff, N.eqb_neq.
           assert (k <> 0%Z).
           { apply (int_base2_group_nonzero g k Hg); [|assumption].
             intro Eg. subst g. discriminate. }
           lia.
        -- apply Hz. subst n.
           replace (8 + length rest) with (length rest + 1 * 8) in Hm by lia.
           now rewrite Nat.Div0.mod_add in Hm.
  - destruct s as [|c s].
    + rewrite byte_list_nil in Hout. simpl in Hout. inversion Hout; subst out.
      exact Hnil.
    + rewrite byte_list_short in Hout by (simpl in *; lia).
      cbn [convert_loop] in Hout.
      destruct (str_eqb (c :: s) (py "00000000")); cbn [negb] in Hout.
      * inversion Hout; subst out. exact Hnil.
      * destruct (int_base2_bits (c :: s) Hb ltac:(simpl in *; lia)) as [k [Hk Hr]].
        rewrite Hk in Hout. cbn [bind] in Hout.
        rewrite chr_byte in Hout by assumption. cbn [bind] in Hout.
        inversion Hout; subst out.
        exists [Z.to_N k]. split; [reflexivity|]. split; [|split].
        -- assert ((n + 7) / 8 = 1).
           { symmetry. apply (Nat.div_unique _ 8 1 (n - 1)); simpl in *; lia. }
           rewrite H. cbn [length]. lia.
        -- constructor; [lia | constructor].
        -- intro Hm. exfalso. rewrite Nat.mod_small in Hm by (simpl in *; lia).
           simpl in *. lia.
Qed.

(** X9.  The message that [decode] returns has at most one character for
    each eight bytes of the buffer (the last group may be shorter), every
    character has a code below 256, and when the number of bytes is a
    multiple of eight none of them is NUL. *)
Theorem decode_message_bounds (img : Image) (message : list N) :
  decode img = Ok message ->
  length message <= (length (buffer img) + 7) / 8
  /\ Forall (fun c => (c < 256)%N) message
  /\ (length (buffer img) mod 8 = 0 -> no_nul message = true).
Proof.
  intro H. destruct (single_band (mode img)) eqn:Hm.
  - rewrite (decode_single_band img Hm) in H.
    destruct (buffer img); [|discriminate]. inversion H.
    repeat split; simpl; auto.
  - rewrite (decode_buffer img Hm) in H. unfold convertBinaryStringToMessage in H.
    destruct (convert_loop_bounds _ (lsb_chars_bits (buffer img)) _ _ H)
      as [tail [Ho [Hl [Hc Hz]]]].
    rewrite length_map in Hl, Hz. cbn [app] in Ho. subst message. auto.
Qed.

Lemma decode_message_bounds_witness :
  decode sample_encoded = Ok (py "H")
  /\ length (py "H") <= (length (buffer sample_encoded) + 7) / 8
  /\ Forall (fun c => (c < 256)%N) (py "H")
  /\ (length (buffer sample_encoded) mod 8 = 0 -> no_nul (py "H") = true).
Proof.
  split; [vm_compute; reflexivity|].
  apply (decode_message_bounds sample_encoded (py "H")).
  vm_compute. reflexivity.
Defined.

(** X10.  On an array of two dimensions [extractLSBits] never raises: it
    returns one character for each entry, in the order of the buffer, each of
    them 0 or 1, and for an entry between 0 and 255 the character is its
    lowest bit.  On an array of one dimension it raises at the first entry;
    on an empty one it returns the empty string. *)
Theorem extractLSBits_digits :
  (forall data : NDArray,
      exists binary_string,
        extractLSBits (Array2D data) = Ok binary_string
        /\ length binary_string = length (concat data)
        /\ is_bits binary_string = true
        /\ forall i v, nth_error (concat data) i = Some v -> is_byte v = true ->
                       nth_error binary_string i = Some (bit_char (Z.odd v)))
  /\ (forall (v : Z) (values : list Z),
         extractLSBits (Array1D (v :: values)) = Raise TypeError)
  /\ extractLSBits (Array1D []) = Ok [].
Proof.
  split; [|split; reflexivity].
  intro data. exists (map lsb_char (concat data)). split; [apply extractLSBits_spec|].
  split; [apply length_map|]. split; [apply lsb_chars_bits|].
  intros i v Hi Hv. rewrite nth_error_map, Hi. cbn [option_map].
  now rewrite (lsb_char_byte v Hv).
Qed.

Lemma extractLSBits_digits_witness :
  (exists binary_string,
      extractLSBits (Array2D [[254; 7; 12]; [0; 1; 2]]%Z) = Ok binary_string
      /\ length binary_string = length (concat [[254; 7; 12]; [0; 1; 2]]%Z)
      /\ is_bits binary_string = true
      /\ forall i v, nth_error (concat [[254; 7; 12]; [0; 1; 2]]%Z) i = Some v ->
                     is_byte v = true ->
                     nth_error binary_string i = Some (bit_char (Z.odd v)))
  /\ extractLSBits (Array1D [254; 7; 12]%Z) = Raise TypeError.
Proof.
  split.
  - exact (proj1 extractLSBits_digits [[254; 7; 12]; [0; 1; 2]]%Z).
  - exact (proj1 (proj2 extractLSBits_digits) 254%Z [7; 12]%Z).
Defined.

(** ** [clearLSBits] and [encodeBits] on their own *)

(** X11.  [clearLSBits] keeps the shape of the array; every entry of its
    result is even and between 0 and 254, and has the bits of the entry it
    replaces except the lowest; clearing twice is clearing once. *)
Theorem clearLSBits_spec (data : NDArray) :
  map (@length Z) (clearLSBits data) = map (@length Z) data
  /\ Forall2 (fun v w => (0 <= w <= 254)%Z /\ Z.odd w = false
                         /\ Z.land w 254 = Z.land v 254)
             (concat data) (concat (clearLSBits data))
  /\ clearLSBits (clearLSBits data) = clearLSBits data.
Proof.
  split; [|split].
  - unfold clearLSBits. rewrite map_map. apply map_ext. intro row. apply length_map.
  - rewrite clearLSBits_buffer. induction (concat data) as [|v l IH]; constructor.
    + pose proof (land_254_range v) as Hr.
      destruct (cleared_untouched v) as [_ [Ho _]].
      rewrite Z.mod_small in Ho by lia.
      split; [|split; [assumption | apply land_254_idem]].
      split; [lia|]. destruct (Z.eq_dec (Z.land v 254) 255) as [E|]; [|lia].
      rewrite E in Ho. discriminate.
    + exact IH.
  - unfold clearLSBits. rewrite map_map. apply map_ext. intro row.
    rewrite map_map. apply map_ext. intro v. apply land_254_idem.
Qed.

Lemma embed_nth_written (flat bits : list Z) (i : nat) (b : Z) :
  nth_error bits i = Some b -> i < length flat ->
  nth i (embed flat bits) 0%Z = Z.lor (nth i flat 0%Z) b.
Proof.
  revert bits i; induction flat as [|v flat IH]; intros bits i Hb Hi;
    [simpl in Hi; lia|].
  destruct bits as [|x bits]; [destruct i; discriminate|].
  destruct i as [|i]; simpl in *.
  - now inversion Hb.
  - apply IH; [assumption | lia].
Qed.

Lemma embed_nth_kept (flat bits : list Z) (i : nat) :
  length bits <= i -> nth i (embed flat bits) 0%Z = nth i flat 0%Z.
Proof.
  revert bits i; induction flat as [|v flat IH]; intros bits i Hi.
  - destruct bits; reflexivity.
  - destruct bits as [|x bits]; [reflexivity|].
    destruct i as [|i]; simpl in *; [lia|]. apply IH. lia.
Qed.

Lemma encodeBits_rows_shape (binary_string : list N) (data : NDArray) :
  is_bits binary_string = true ->
  forall index data',
    index <= length binary_string ->
    encodeBits_rows data binary_string index = Ok (Some data') ->
    map (@length Z) data' = map (@length Z) data.
Proof.
  intro Hb. induction data as [|row data IH]; intros index data' Hi H.
  - discriminate.
  - cbn [encodeBits_rows] in H.
    rewrite (encodeBits_cols_spec binary_string Hb row index Hi) in H.
    cbn [bind] in H.
    destruct (length binary_string <? index + length row) eqn:Hret.
    + inversion H. cbn [map]. now rewrite embed_length.
    + apply Nat.ltb_ge in Hret.
      destruct (encodeBits_rows data binary_string
                  (Nat.min (index + length row) (length binary_string)))
        as [[rest|]|e] eqn:Hrest; cbn [bind option_map] in H; try discriminate.
      inversion H. cbn [map]. rewrite embed_length. f_equal.
      eapply IH; [|exact Hrest]. lia.
Qed.

(** X12.  When the bit string is shorter than the array has entries,
    [encodeBits] returns the array with its shape unchanged: entry [i] of the
    buffer is or-ed with digit [i] of the string for each position of the
    string, and every later entry is left as it was. *)
Theorem encodeBits_writes_prefix (data : NDArray) (binary_string : list N) :
  is_bits binary_string = true ->
  length binary_string < length (concat data) ->
  exists data',
    encodeBits data binary_string = Ok (Some data')
    /\ map (@length Z) data' = map (@length Z) data
    /\ (forall i c, nth_error binary_string i = Some c ->
                    nth i (concat data') 0%Z
                    = Z.lor (nth i (concat data) 0%Z) (digit_val c))
    /\ (forall i, length binary_string <= i ->
                  nth i (concat data') 0%Z = nth i (concat data) 0%Z).
Proof.
  intros Hb Hl. destruct (encodeBits_some binary_string Hb data Hl) as [data' [Hd Hc]].
  exists data'. split; [assumption|]. split; [|split].
  - apply (encodeBits_rows_shape binary_string data Hb 0 data' ltac:(lia) Hd).
  - intros i c Hi. rewrite Hc. apply embed_nth_written.
    + rewrite nth_error_map, Hi. reflexivity.
    + assert (i < length binary_string) by (apply nth_error_Some; congruence). lia.
  - intros i Hi. rewrite Hc. apply embed_nth_kept. now rewrite length_map.
Qed.

Lemma encodeBits_writes_prefix_witness :
  is_bits (py "101") = true
  /\ length (py "101") < length (concat [[254; 6; 12]; [0; 8; 2]]%Z)
  /\ exists data',
      encodeBits [[254; 6; 12]; [0; 8; 2]]%Z (py "101") = Ok (Some data')
      /\ map (@length Z) data' = map (@length Z) [[254; 6; 12]; [0; 8; 2]]%Z
      /\ (forall i c, nth_error (py "101") i = Some c ->
                      nth i (concat data') 0%Z
                      = Z.lor (nth i (concat [[254; 6; 12]; [0; 8; 2]]%Z) 0%Z)
                              (digit_val c))
      /\ (forall i, length (py "101") <= i ->
                    nth i (concat data') 0%Z
                    = nth i (concat [[254; 6; 12]; [0; 8; 2]]%Z) 0%Z).
Proof.
  split; [reflexivity|]. split; [vm_compute; lia|].
  apply (encodeBits_writes_prefix [[254; 6; 12]; [0; 8; 2]]%Z (py "101"));
    [reflexivity | vm_compute; lia].
Defined.

(** ** [getImageInfo] *)

(** The two outcomes of [encode] on an ASCII message. *)
Lemma encode_ascii_cases (T : N -> list N) (img : Image) (m : list N) (bpp : nat) :
  determineBytesPerPixel (mode img) = Ok bpp ->
  length (buffer img) = width img * height img * bpp ->
  0 < length (buffer img) ->
  is_ascii m = true ->
  (length m <= width img * height img * bpp / 8 / 8 ->
   exists img', encode T img m = Ok img')
  /\ (width img * height img * bpp / 8 / 8 < length m ->
      encode T img m = Raise MessageTooLarge).
Proof.
  intros Hbpp Hlen Hpos Ha.
  pose proof (message_binary_ascii_length T m Ha) as Hl.
  set (c := width img * height img * bpp / 8) in *.
  pose proof (Nat.div_mod_eq c 8) as Hdm.
  pose proof (Nat.mod_upper_bound c 8 ltac:(lia)) as Hmod.
  split; intro H.
  - destruct (encode_ok T img m bpp Hbpp Hlen ltac:(fold c; lia) Hpos) as [img' [He _]].
    now exists img'.
  - apply (encode_too_large T img m c).
    + unfold calculateImageCapacity. rewrite Hbpp. reflexivity.
    + lia.
Qed.

Lemma determineBytesPerPixel_raises (m : list N) (e : exn) :
  determineBytesPerPixel m = Raise e -> e = UnsupportedFormat.
Proof.
  unfold determineBytesPerPixel.
  destruct (str_eqb m (py "RGB")); [discriminate|].
  destruct (str_eqb m (py "RGBA")); [discriminate|].
  intro H. now inversion H.
Qed.

(** X13.  [getImageInfo] asks for the size of the file first: when
    [os.path.getsize] raises, that exception comes out, whatever the image;
    when it returns, an image of another mode than RGB and RGBA gives the
    exception of [determineBytesPerPixel]; otherwise the dictionary is
    returned, with [total_pixels = width * height], the size read, and
    [capacity = total_pixels * bytes_per_pixel // 8]. *)
Theorem getImageInfo_outcome
  (basename : list N -> list N) (splitext : list N -> list N * list N)
  (getsize : list N -> result nat)
  (img : Image) (img_format : option (list N)) (absolute_path : list N) :
  (forall e, getsize absolute_path = Raise e ->
             getImageInfo basename splitext getsize img img_format absolute_path
             = Raise e)
  /\ (forall size e, getsize absolute_path = Ok size ->
                     determineBytesPerPixel (mode img) = Raise e ->
                     getImageInfo basename splitext getsize img img_format absolute_path
                     = Raise UnsupportedFormat)
  /\ (forall size bpp, getsize absolute_path = Ok size ->
                       determineBytesPerPixel (mode img) = Ok bpp ->
                       exists info,
                         getImageInfo basename splitext getsize img img_format
                                      absolute_path = Ok info
                         /\ info_width info = width img
                         /\ info_height info = height img
                         /\ info_total_pixels info = width img * height img
                         /\ info_file_size info = size
                         /\ info_capacity info = info_total_pixels info * bpp / 8
                         /\ info_color_mode info = mode img
                         /\ info_absolute_path info = absolute_path
                         /\ info_extension info = img_format).
Proof.
  unfold getImageInfo, calculateImageCapacity. split; [|split].
  - intros e He. now rewrite He.
  - intros size e Hs Hm. rewrite Hs, Hm. cbn [bind].
    now rewrite (determineBytesPerPixel_raises _ _ Hm).
  - intros size bpp Hs Hm. rewrite Hs, Hm. cbn [bind].
    eexists. split; [reflexivity|]. cbn. repeat split; reflexivity.
Qed.

Lemma getImageInfo_outcome_witness :
  sample_getsize (py "/tmp/sample.png") = Ok 120
  /\ determineBytesPerPixel (mode sample_image) = Ok 4
  /\ exists info,
      getImageInfo sample_basename sample_splitext sample_getsize sample_image
                   (Some (py "PNG")) (py "/tmp/sample.png") = Ok info
      /\ info_width info = width sample_image
      /\ info_height info = height sample_image
      /\ info_total_pixels info = width sample_image * height sample_image
      /\ info_file_size info = 120
      /\ info_capacity info = info_total_pixels info * 4 / 8
      /\ info_color_mode info = mode sample_image
      /\ info_absolute_path info = py "/tmp/sample.png"
      /\ info_extension info = Some (py "PNG").
Proof.
  split; [reflexivity|]. split; [reflexivity|].
  exact (proj2 (proj2 (getImageInfo_outcome sample_basename sample_splitext
                         sample_getsize sample_image (Some (py "PNG"))
                         (py "/tmp/sample.png")))
           120 4 eq_refl eq_refl).
Defined.

(** X14.  The capacity that [getImageInfo] reports is eight times what
    [encode] takes: for an image with a non-empty buffer of
    [total_pixels * bytes_per_pixel] entries, an ASCII message is encoded when
    it has at most [capacity // 8] characters and refused as too long
    otherwise. *)
Theorem getImageInfo_capacity_and_encode
  (basename : list N -> list N) (splitext : list N -> list N * list N)
  (getsize : list N -> result nat) (T : N -> list N)
  (img : Image) (img_format : option (list N)) (absolute_path : list N)
  (info : ImageInfo) (bpp : nat) (m : list N) :
  getImageInfo basename splitext getsize img img_format absolute_path = Ok info ->
  determineBytesPerPixel (mode img) = Ok bpp ->
  length (buffer img) = info_total_pixels info * bpp ->
  0 < length (buffer img) ->
  is_ascii m = true ->
  (length m <= info_capacity info / 8 -> exists img', encode T img m = Ok img')
  /\ (info_capacity info / 8 < length m -> encode T img m = Raise MessageTooLarge).
Proof.
  intros Hinfo Hbpp Hlen Hpos Ha.
  unfold getImageInfo, calculateImageCapacity in Hinfo.
  destruct (getsize absolute_path) as [size|e]; [|discriminate].
  rewrite Hbpp in Hinfo. cbn [bind] in Hinfo. inversion Hinfo; subst info. clear Hinfo.
  cbn [info_capacity info_total_pixels] in *.
  now apply encode_ascii_cases.
Qed.

Lemma getImageInfo_capacity_and_encode_witness :
  getImageInfo sample_basename sample_splitext sample_getsize sample_image
               (Some (py "PNG")) (py "/tmp/sample.png")
  = Ok (mkImageInfo (py "sample") (Some (py "PNG")) (py "/tmp/sample.png")
                    4 4 16 120 8 (py "RGBA"))
  /\ determineBytesPerPixel (mode sample_image) = Ok 4
  /\ length (buffer sample_image) = 16 * 4
  /\ 0 < length (buffer sample_image)
  /\ is_ascii (py "Hi") = true
  /\ encode no_table sample_image (py "Hi") = Raise MessageTooLarge.
Proof.
  split; [reflexivity|]. split; [reflexivity|]. split; [reflexivity|].
  split; [vm_compute; lia|]. split; [reflexivity|].
  apply (proj2 (getImageInfo_capacity_and_encode
                  sample_basename sample_splitext sample_getsize no_table
                  sample_image (Some (py "PNG")) (py "/tmp/sample.png")
                  (mkImageInfo (py "sample") (Some (py "PNG")) (py "/tmp/sample.png")
                               4 4 16 120 8 (py "RGBA"))
                  4 (py "Hi") eq_refl eq_refl eq_refl ltac:(vm_compute; lia) eq_refl)).
  vm_compute. lia.
Defined.

(** ** main.py: [encodeMessage] and [decodeImage] *)

(** X15.  [encodeMessage] stores its result in [modified_image] and never
    touches [loaded_image], which is what [decodeImage] reads: pressing
    decode after encode shows what it would have shown before, the message
    hidden in the image that was loaded, not the one just encoded. *)
Theorem decodeImage_after_encodeMessage (T : N -> list N) (self : AppGUI) :
  loaded_image (fst (encodeMessage T self)) = loaded_image self
  /\ fieldResult (fst (encodeMessage T self)) = fieldResult self
  /\ fieldResult (fst (decodeImage (fst (encodeMessage T self))))
     = fieldResult (fst (decodeImage self))
  /\ snd (decodeImage (fst (encodeMessage T self))) = snd (decodeImage self).
Proof.
  assert (H : loaded_image (fst (encodeMessage T self)) = loaded_image self
              /\ fieldResult (fst (encodeMessage T self)) = fieldResult self).
  { unfold encodeMessage. destruct (loaded_image self) as [image|] eqn:E; [|auto].
    destruct (length (fieldMessage self) <? 1); [auto|].
    destruct (encode T image (fieldMessage self)); cbn; auto. }
  destruct H as [Hl Hf]. split; [exact Hl|]. split; [exact Hf|].
  unfold decodeImage. rewrite Hl.
  destruct (loaded_image self) as [image|]; [|cbn; auto].
  destruct (decode image); cbn; auto.
Qed.

(** X16.  Through the window the round trip needs no lower bound on the
    buffer: with an RGB or RGBA image loaded and a non-empty ASCII message
    without NUL that passes the length test, [encodeMessage] shows no error
    and leaves in [modified_image] an image that decodes to the message. *)
Theorem encodeMessage_roundtrip
  (T : N -> list N) (self : AppGUI) (img : Image) (bpp : nat) :
  loaded_image self = Some img ->
  determineBytesPerPixel (mode img) = Ok bpp ->
  length (buffer img) = width img * height img * bpp ->
  fieldMessage self <> [] ->
  is_ascii (fieldMessage self) = true ->
  no_nul (fieldMessage self) = true ->
  length (fieldMessage self) * 8 <= width img * height img * bpp / 8 ->
  exists img',
    encodeMessage T self = (set_modified_image self img', None)
    /\ decode img' = Ok (fieldMessage self).
Proof.
  intros Hl Hbpp Hlen Hne Ha Hn Hcap.
  assert (Hpos : 1 <= length (fieldMessage self))
    by (destruct (fieldMessage self); [congruence | simpl; lia]).
  pose proof (Nat.Div0.mul_div_le (width img * height img * bpp) 8) as Hdiv.
  pose proof (unidecode_ascii T _ Ha) as Hu.
  destruct (decode_encode_unidecode T img (fieldMessage self) bpp Hbpp Hlen)
    as [img' [He Hd]]; try (rewrite Hu; assumption); [lia|].
  exists img'. rewrite Hu in Hd. split; [|assumption].
  unfold encodeMessage. rewrite Hl.
  replace (length (fieldMessage self) <? 1) with false
    by (symmetry; apply Nat.ltb_ge; lia).
  now rewrite He.
Qed.

Lemma encodeMessage_roundtrip_witness :
  loaded_image (sample_gui (py "H")) = Some sample_image
  /\ determineBytesPerPixel (mode sample_image) = Ok 4
  /\ length (buffer sample_image) = width sample_image * height sample_image * 4
  /\ fieldMessage (sample_gui (py "H")) <> []
  /\ is_ascii (fieldMessage (sample_gui (py "H"))) = true
  /\ no_nul (fieldMessage (sample_gui (py "H"))) = true
  /\ length (fieldMessage (sample_gui (py "H"))) * 8
     <= width sample_image * height sample_image * 4 / 8
  /\ exists img',
      encodeMessage no_table (sample_gui (py "H"))
      = (set_modified_image (sample_gui (py "H")) img', None)
      /\ decode img' = Ok (fieldMessage (sample_gui (py "H"))).
Proof.
  split; [reflexivity|]. split; [reflexivity|]. split; [reflexivity|].
  split; [discriminate|]. split; [reflexivity|]. split; [reflexivity|].
  split; [vm_compute; lia|].
  apply (encodeMessage_roundtrip no_table (sample_gui (py "H")) sample_image 4);
    first [reflexivity | discriminate | vm_compute; lia].
Defined.

(** X17.  With an image loaded whose buffer has the size its mode tells and
    an ASCII text in the message field, [encodeMessage] either stores a new
    [modified_image] and shows nothing, or changes nothing and shows one of
    three errors: no message entered, unsupported mode, message too long.
    The [None] of [encodeBits] never reaches the window. *)
Theorem encodeMessage_outcomes (T : N -> list N) (self : AppGUI) (img : Image) :
  loaded_image self = Some img ->
  (forall bpp, determineBytesPerPixel (mode img) = Ok bpp ->
               length (buffer img) = width img * height img * bpp) ->
  is_ascii (fieldMessage self) = true ->
  (exists img', encodeMessage T self = (set_modified_image self img', None))
  \/ encodeMessage T self = (self, Some NoMessageEntered)
  \/ encodeMessage T self = (self, Some (Core UnsupportedFormat))
  \/ encodeMessage T self = (self, Some (Core MessageTooLarge)).
Proof.
  intros Hl Hwf Ha. unfold encodeMessage. rewrite Hl.
  destruct (length (fieldMessage self) <? 1) eqn:Hm; [auto|].
  apply Nat.ltb_ge in Hm.
  destruct (determineBytesPerPixel (mode img)) as [bpp|e] eqn:Hbpp.
  - specialize (Hwf bpp eq_refl).
    destruct (Nat.eq_dec (length (buffer img)) 0) as [Hz|Hnz].
    + rewrite (encode_too_large T img (fieldMessage self)
                 (width img * height img * bpp / 8)); [auto | |].
      * unfold calculateImageCapacity. now rewrite Hbpp.
      * rewrite message_binary_ascii_length by assumption.
        rewrite <- Hwf, Hz. simpl. lia.
    + destruct (encode_ascii_cases T img (fieldMessage self) bpp Hbpp Hwf
                  ltac:(lia) Ha) as [Hok Hbig].
      destruct (le_lt_dec (length (fieldMessage self))
                          (width img * height img * bpp / 8 / 8)) as [Hle|Hlt].
      * destruct (Hok Hle) as [img' He]. rewrite He. left. now exists img'.
      * rewrite (Hbig Hlt). auto.
  - apply determineBytesPerPixel_raises in Hbpp as He. subst e.
    unfold encode, calculateImageCapacity. rewrite Hbpp. cbn [bind]. auto.
Qed.

Lemma encodeMessage_outcomes_witness :
  loaded_image (sample_gui (py "Hi")) = Some sample_image
  /\ (forall bpp, determineBytesPerPixel (mode sample_image) = Ok bpp ->
                  length (buffer sample_image)
                  = width sample_image * height sample_image * bpp)
  /\ is_ascii (fieldMessage (sample_gui (py "Hi"))) = true
  /\ ((exists img', encodeMessage no_table (sample_gui (py "Hi"))
                    = (set_modified_image (sample_gui (py "Hi")) img', None))
      \/ encodeMessage no_table (sample_gui (py "Hi"))
         = (sample_gui (py "Hi"), Some NoMessageEntered)
      \/ encodeMessage no_table (sample_gui (py "Hi"))
         = (sample_gui (py "Hi"), Some (Core UnsupportedFormat))
      \/ encodeMessage no_table (sample_gui (py "Hi"))
         = (sample_gui (py "Hi"), Some (Core MessageTooLarge))).
Proof.
  assert (Hwf : forall bpp, determineBytesPerPixel (mode sample_image) = Ok bpp ->
                            length (buffer sample_image)
                            = width sample_image * height sample_image * bpp).
  { intros bpp H. vm_compute in H. inversion H. reflexivity. }
  split; [reflexivity|]. split; [exact Hwf|]. split; [reflexivity|].
  exact (encodeMessage_outcomes no_table (sample_gui (py "Hi")) sample_image
           eq_refl Hwf eq_refl).
Defined.
